(** * Query understanding and retrieval metrics of the legal RAG benchmark

    A shallow embedding of [modules_annexes/query_understanding.py],
    [modules_annexes/metrics.py] and the record of
    [notebooks/benchmark_queries_v2.py], with the properties of the
    specification stated and proved over it.

    Python strings are sequences of Unicode code points: [pystr] is a list
    of code points in [N].  Python dictionaries that are iterated in order
    (the business dictionary) are association lists; those used as records
    (an intent entry, the result of the pipeline) are [gmap]s. *)

From Stdlib Require Import ZArith NArith List Bool Lia String Ascii Reals Lra.
From stdpp Require Import base list gmap.

Local Open Scope N_scope.

(** ** Python strings *)

Abbreviation pystr := (list N).

Module PyStr.

(** Decoding of a UTF-8 literal into its code points, so that the French
    phrases of the sources can be written as literals. *)
Fixpoint utf8_decode (bs : list N) : pystr :=
  match bs with
  | [] => []
  | b0 :: r0 =>
    if b0 <? 0x80 then b0 :: utf8_decode r0
    else if b0 <? 0xE0 then
      match r0 with
      | b1 :: r1 => ((b0 mod 0x20) * 0x40 + b1 mod 0x40) :: utf8_decode r1
      | [] => []
      end
    else if b0 <? 0xF0 then
      match r0 with
      | b1 :: b2 :: r2 =>
        ((b0 mod 0x10) * 0x1000 + (b1 mod 0x40) * 0x40 + b2 mod 0x40)
          :: utf8_decode r2
      | _ => []
      end
    else
      match r0 with
      | b1 :: b2 :: b3 :: r3 =>
        ((b0 mod 0x08) * 0x40000 + (b1 mod 0x40) * 0x1000
         + (b2 mod 0x40) * 0x40 + b3 mod 0x40) :: utf8_decode r3
      | _ => []
      end
  end.

Definition u (s : string) : pystr :=
  utf8_decode (map N_of_ascii (list_ascii_of_string s)).

(** [str.isspace] of one code point, which is also the class [\s] of [re]
    on [str] patterns. *)
Definition is_space (c : N) : bool :=
  ((0x09 <=? c) && (c <=? 0x0D)) || ((0x1C <=? c) && (c <=? 0x20))
  || (c =? 0x85) || (c =? 0xA0) || (c =? 0x1680)
  || ((0x2000 <=? c) && (c <=? 0x200A))
  || (c =? 0x2028) || (c =? 0x2029) || (c =? 0x202F) || (c =? 0x205F)
  || (c =? 0x3000).

Definition SPACE : N := 0x20.

(** [p in s] on strings: [p] occurs in [s] as a contiguous run. *)
Fixpoint starts_with (p s : pystr) : bool :=
  match p, s with
  | [], _ => true
  | _ :: _, [] => false
  | a :: p', b :: s' => (a =? b) && starts_with p' s'
  end.

Fixpoint contains (p s : pystr) : bool :=
  starts_with p s ||
  match s with
  | [] => false
  | _ :: s' => contains p s'
  end.

(** [sep.join(parts)] *)
Fixpoint join (sep : pystr) (parts : list pystr) : pystr :=
  match parts with
  | [] => []
  | [p] => p
  | p :: rest => p ++ sep ++ join sep rest
  end.

(** [s.lstrip()], [s.rstrip()] and [s.strip()] without argument. *)
Fixpoint lstrip (s : pystr) : pystr :=
  match s with
  | [] => []
  | c :: s' => if is_space c then lstrip s' else s
  end.

Fixpoint rstrip (s : pystr) : pystr :=
  match s with
  | [] => []
  | c :: s' =>
    match rstrip s' with
    | [] => if is_space c then [] else [c]
    | r => c :: r
    end
  end.

Definition strip (s : pystr) : pystr := rstrip (lstrip s).

(** A case mapping for the Latin repertoire of the corpus: Basic Latin and
    Latin-1 capitals, and the four remaining code points whose lower case
    reaches the alphabet kept by [normalize_text]. Used to run the
    functions on concrete inputs; the development itself is parametric in
    [str.lower]. *)
Definition lower_char (c : N) : pystr :=
  if (0x41 <=? c) && (c <=? 0x5A) then [c + 0x20]
  else if (0xC0 <=? c) && (c <=? 0xDE) && negb (c =? 0xD7) then [c + 0x20]
  else if c =? 0x130 then [0x69; 0x307]
  else if c =? 0x152 then [0x153]
  else if c =? 0x178 then [0xFF]
  else if c =? 0x212A then [0x6B]
  else [c].

Definition lower_latin (s : pystr) : pystr := concat (map lower_char s).

End PyStr.

Import PyStr.

(** ** The builtins the modules rely on *)

(** [str.lower], the Unicode lower-casing of a whole string (it is
    context-sensitive and may change the length). *)
Class StrLower := str_lower : pystr -> pystr.

(** Floating-point arithmetic as used by [metrics.py]: the literal [0.0],
    [float] of an integer, [+] and [/] on floats, [math.log2] of an
    integer and the true division [/] of two integers. *)
Class FloatOps (F : Type) := {
  f_zero : F;
  f_of_int : Z -> F;
  f_add : F -> F -> F;
  f_div : F -> F -> F;
  f_log2 : Z -> F;
  int_truediv : Z -> Z -> F
}.

(** Exceptions and results of fallible code. *)
Inductive exn := KeyError (key : pystr).

Inductive result (A : Type) :=
  | Ok (a : A)
  | Raise (e : exn).
Arguments Ok {A} a.
Arguments Raise {A} e.

#[global] Instance result_bind : MBind result := fun A B f m =>
  match m with
  | Ok a => f a
  | Raise e => Raise e
  end.

(** Python values stored in the result of the pipeline. *)
Inductive pyval :=
  | VNone
  | VStr (s : pystr)
  | VList (l : list pystr).

(** Numbers returned by the metrics: an [int] or a [float]. *)
Inductive pynum (F : Type) :=
  | PyInt (z : Z)
  | PyFloat (f : F).
Arguments PyInt {F} z.
Arguments PyFloat {F} f.

(** [l[:k]] for any integer [k]: a negative [k] counts from the end. *)
Definition slice_to {A : Type} (l : list A) (k : Z) : list A :=
  if (0 <=? k)%Z then take (Z.to_nat k) l
  else take (length l - Z.to_nat (- k))%nat l.

(** [range(a, b)] *)
Definition py_range (a b : Z) : list Z := seqZ a (b - a).

(** ** query_understanding.py *)

(** An intent definition is a mapping from field name to a list of
    strings; the dictionary maps intent keys to intent definitions and is
    iterated in its declared order. *)
Abbreviation intent_entry := (gmap pystr (list pystr)).
Abbreviation juridical_dictionary := (list (pystr * intent_entry)).

Definition intentions_utilisateur : pystr :=
  Eval vm_compute in u "intentions_utilisateur".
Definition concepts_juridiques_centrals : pystr :=
  Eval vm_compute in u "concepts_juridiques_centrals".
Definition termes_juridiques_textes : pystr :=
  Eval vm_compute in u "termes_juridiques_textes".
Definition codes_cibles : pystr := Eval vm_compute in u "codes_cibles".
Definition articles_cibles : pystr := Eval vm_compute in u "articles_cibles".
Definition intent_detected : pystr := Eval vm_compute in u "intent_detected".
Definition enriched_query : pystr := Eval vm_compute in u "enriched_query".
Definition notes : pystr := Eval vm_compute in u "notes".
Definition no_intent_note : pystr :=
  Eval vm_compute in u "Aucune intention métier détectée".

(** [intent_data[name]] *)
Definition get_field (intent_data : intent_entry) (name : pystr)
  : result (list pystr) :=
  match intent_data !! name with
  | Some v => Ok v
  | None => Raise (KeyError name)
  end.

(** [dictionary[intent_key]] *)
Fixpoint dict_get (dictionary : juridical_dictionary) (intent_key : pystr)
  : result intent_entry :=
  match dictionary with
  | [] => Raise (KeyError intent_key)
  | (key, intent_data) :: rest =>
    if decide (key = intent_key) then Ok intent_data
    else dict_get rest intent_key
  end.

(** The letters of the class [a-zàâçéèêëîïôûùüÿñæœ]. *)
Definition accented : list N :=
  [0xE0; 0xE2; 0xE7; 0xE9; 0xE8; 0xEA; 0xEB; 0xEE; 0xEF; 0xF4; 0xFB; 0xF9;
   0xFC; 0xFF; 0xF1; 0xE6; 0x153].

Definition is_letter (c : N) : bool :=
  ((0x61 <=? c) && (c <=? 0x7A)) || existsb (N.eqb c) accented.

(** [re.sub(r"[^a-zàâçéèêëîïôûùüÿñæœ\s]", " ", text)] *)
Definition blank_specials (text : pystr) : pystr :=
  map (fun c => if is_letter c || is_space c then c else SPACE) text.

(** [re.sub(r"\s+", " ", text)]: [in_run] tells that the previous
    character belongs to a run of whitespace already replaced. *)
Fixpoint collapse (in_run : bool) (text : pystr) : pystr :=
  match text with
  | [] => []
  | c :: rest =>
    if is_space c then
      if in_run then collapse true rest else SPACE :: collapse true rest
    else c :: collapse false rest
  end.

Definition squeeze_spaces (text : pystr) : pystr := collapse false text.

Definition normalize_text {L : StrLower} (text : pystr) : pystr :=
  let text := str_lower text in
  let text := blank_specials text in
  strip (squeeze_spaces text).

(** The inner loop of [detect_intention]: some phrase occurs in the
    normalized query. *)
Fixpoint phrase_found (phrases : list pystr) (normalized_query : pystr)
  : bool :=
  match phrases with
  | [] => false
  | phrase :: rest =>
    if contains phrase normalized_query then true
    else phrase_found rest normalized_query
  end.

(** The outer loop, over [dictionary.items()]. *)
Fixpoint detect_loop (normalized_query : pystr)
    (items : juridical_dictionary) : result (option pystr) :=
  match items with
  | [] => Ok None
  | (intent_key, intent_data) :: rest =>
    phrases ← get_field intent_data intentions_utilisateur;
    if phrase_found phrases normalized_query then Ok (Some intent_key)
    else detect_loop normalized_query rest
  end.

Definition detect_intention {L : StrLower} (query : pystr)
    (dictionary : juridical_dictionary) : result (option pystr) :=
  let normalized_query := normalize_text query in
  detect_loop normalized_query dictionary.

Definition enrich_query (query intent_key : pystr)
    (dictionary : juridical_dictionary) : result pystr :=
  intent_data ← dict_get dictionary intent_key;
  concepts ← get_field intent_data concepts_juridiques_centrals;
  termes ← get_field intent_data termes_juridiques_textes;
  let enriched_terms := concepts ++ termes in
  Ok (query ++ [SPACE] ++ join [SPACE] enriched_terms).

Definition process_user_query {L : StrLower} (query : pystr)
    (dictionary : juridical_dictionary) : result (gmap pystr pyval) :=
  intent ← detect_intention query dictionary;
  match intent with
  | None =>
    Ok {[ intent_detected := VNone;
          enriched_query := VStr query;
          notes := VStr no_intent_note ]}
  | Some intent =>
    enriched ← enrich_query query intent dictionary;
    codes ← dict_get dictionary intent ≫= (λ e, get_field e codes_cibles);
    articles ←
      dict_get dictionary intent ≫= (λ e, get_field e articles_cibles);
    Ok {[ intent_detected := VStr intent;
          enriched_query := VStr enriched;
          codes_cibles := VList codes;
          articles_cibles := VList articles ]}
  end.

(** ** metrics.py *)

(** A retrieved document: its [text] and, for chunks, a [meta] mapping. *)
Record document := {
  doc_text : pystr;
  doc_meta : option (gmap pystr pystr)
}.

Section Metrics.
Context {L : StrLower} {F : Type} {O : FloatOps F}.

(** A ranked list of [(document, score)] pairs. *)
Definition ranked := list (document * F).

Definition is_relevant (document_text : pystr)
    (relevant_keywords : list pystr) : bool :=
  let text := str_lower document_text in
  existsb (fun keyword => contains (str_lower keyword) text)
          relevant_keywords.

(** The loop of [recall_at_k] over [top_k]. *)
Fixpoint recall_loop (top_k : ranked) (relevant_keywords : list pystr)
  : pynum F :=
  match top_k with
  | [] => PyInt 0
  | (doc, _) :: rest =>
    if is_relevant (doc_text doc) relevant_keywords then PyInt 1
    else recall_loop rest relevant_keywords
  end.

Definition recall_at_k (results : ranked)
    (relevant_keywords : list pystr) (k : Z) : pynum F :=
  let top_k := slice_to results k in
  recall_loop top_k relevant_keywords.

(** The loop of [reciprocal_rank] over [enumerate(results, start=rank)]. *)
Fixpoint rr_loop (rank : Z) (results : ranked)
    (relevant_keywords : list pystr) : pynum F :=
  match results with
  | [] => PyInt 0
  | (doc, _) :: rest =>
    if is_relevant (doc_text doc) relevant_keywords
    then PyFloat (int_truediv 1 rank)
    else rr_loop (rank + 1) rest relevant_keywords
  end.

Definition reciprocal_rank (results : ranked)
    (relevant_keywords : list pystr) : pynum F :=
  rr_loop 1 results relevant_keywords.

(** [1 / math.log2(i + 1)] *)
Definition gain (i : Z) : F := f_div (f_of_int 1) (f_log2 (i + 1)).

(** The first loop of [ndcg_at_k], over [enumerate(window, start=i)],
    on the state [(dcg, relevances)]. *)
Fixpoint dcg_loop (i : Z) (window : ranked)
    (relevant_keywords : list pystr) (dcg : F) (relevances : list Z)
  : F * list Z :=
  match window with
  | [] => (dcg, relevances)
  | (doc, _) :: rest =>
    if is_relevant (doc_text doc) relevant_keywords
    then dcg_loop (i + 1) rest relevant_keywords
                  (f_add dcg (gain i)) (relevances ++ [1%Z])
    else dcg_loop (i + 1) rest relevant_keywords dcg relevances
  end.

(** The second loop, over a [range]. *)
Fixpoint idcg_loop (range : list Z) (idcg : F) : F :=
  match range with
  | [] => idcg
  | i :: rest => idcg_loop rest (f_add idcg (gain i))
  end.

Definition ndcg_at_k (results : ranked)
    (relevant_keywords : list pystr) (k : Z) : pynum F :=
  let '(dcg, relevances) :=
    dcg_loop 1 (slice_to results k) relevant_keywords f_zero [] in
  match relevances with
  | [] => PyFloat f_zero
  | _ :: _ =>
    let idcg :=
      idcg_loop (py_range 1 (Z.of_nat (length relevances) + 1)) f_zero in
    PyFloat (f_div dcg idcg)
  end.

End Metrics.

Arguments ranked : clear implicits.

(** ** benchmark_queries_v2.py *)

Record BenchmarkQueryV2 := {
  qid : pystr;
  question : pystr;
  relevant_num_prefixes : list pystr;
  relevant_keywords_fallback : option (list pystr)
}.

Definition get_benchmark_queries_v2 : list BenchmarkQueryV2 :=
  [ {| qid := u "Q1";
       question := u "Dans quels cas un CDI peut-il être rompu sans préavis ?";
       relevant_num_prefixes := [u "L1234"];
       relevant_keywords_fallback :=
         Some [u "préavis"; u "indemnité compensatrice"; u "faute grave";
               u "faute lourde"] |};
    {| qid := u "Q2";
       question := u "Qu'est-ce qu'un licenciement pour motif économique ?";
       relevant_num_prefixes := [u "L1233"];
       relevant_keywords_fallback :=
         Some [u "motif économique"; u "difficultés économiques";
               u "mutations technologiques"; u "suppression";
               u "transformation d'emploi"] |};
    {| qid := u "Q3";
       question := u "Un salarié peut-il contester un licenciement ?";
       relevant_num_prefixes := [u "L1471"; u "L1235"];
       relevant_keywords_fallback :=
         Some [u "prud'hom"; u "saisine"; u "délai"; u "prescription";
               u "contestation"] |} ].

Definition num : pystr := Eval vm_compute in u "num".

(** [meta.num] of a document, when there is one. *)
Definition meta_num (doc : document) : option pystr :=
  doc_meta doc ≫= (λ meta, meta !! num).

(** Modelled from the spec: the article-prefix oracle is run by the
    notebooks, which are not part of the Python modules; only the record
    [BenchmarkQueryV2] it reads is. A document is relevant iff its
    [meta.num] starts with an accepted prefix; when [meta.num] is absent or
    empty the keyword oracle is applied to the fallback keywords if there
    are any, and the document is not relevant otherwise. *)
Definition is_relevant_v2 {L : StrLower} (doc : document)
    (query : BenchmarkQueryV2) : bool :=
  match meta_num doc with
  | Some (c :: rest) =>
    existsb (fun prefix => starts_with prefix (c :: rest))
            (relevant_num_prefixes query)
  | _ =>
    match relevant_keywords_fallback query with
    | Some keywords => is_relevant (doc_text doc) keywords
    | None => false
    end
  end.

(** ** Instances used to run the functions *)

Definition latin_lower : StrLower := lower_latin.

(** The metrics over the real numbers. *)
Definition real_ops : FloatOps R := {|
  f_zero := 0%R;
  f_of_int := IZR;
  f_add := Rplus;
  f_div := Rdiv;
  f_log2 := fun z => (ln (IZR z) / ln 2)%R;
  int_truediv := fun a b => (IZR a / IZR b)%R
|}.

(** A dictionary with two intents, in the shape of
    [juridical_dictionary.yml]. *)
Definition rupture_entry : intent_entry :=
  {[ intentions_utilisateur := [u "rompu sans préavis"; u "sans préavis"];
     concepts_juridiques_centrals := [u "faute grave"; u "faute lourde"];
     termes_juridiques_textes := [u "licenciement"];
     codes_cibles := [u "code du travail"];
     articles_cibles := [u "L1234-1"] ]}.

Definition economique_entry : intent_entry :=
  {[ intentions_utilisateur := [u "motif économique"; u "préavis"];
     concepts_juridiques_centrals := [u "difficultés économiques"];
     termes_juridiques_textes := [u "mutations technologiques"];
     codes_cibles := [u "code du travail"];
     articles_cibles := [u "L1233-3"] ]}.

Definition sample_dictionary : juridical_dictionary :=
  [(u "rupture_sans_preavis", rupture_entry);
   (u "licenciement_economique", economique_entry)].

Definition query_cdi : pystr :=
  u "Dans quels cas un CDI peut-il être rompu sans préavis ?".

Definition query_conges : pystr := u "Quelle est la durée des congés payés ?".

Definition doc_of_text (text : pystr) : document :=
  {| doc_text := text; doc_meta := None |}.

Definition doc_of_num (text article : pystr) : document :=
  {| doc_text := text; doc_meta := Some {[ num := article ]} |}.

(** Ranked lists with the relevant document first, then second. *)
Definition faute_first : ranked R :=
  [(doc_of_text (u "Licenciement pour Faute Grave du salarié"), (9 / 10)%R);
   (doc_of_text (u "Durée du congé payé"), (5 / 10)%R)].

Definition faute_second : ranked R :=
  [(doc_of_text (u "Durée du congé payé"), (9 / 10)%R);
   (doc_of_text (u "Licenciement pour Faute Grave du salarié"), (5 / 10)%R)].

(** A benchmark query without fallback keywords. *)
Definition query_l1234 : BenchmarkQueryV2 :=
  {| qid := u "Q1";
     question := query_cdi;
     relevant_num_prefixes := [u "L1234"];
     relevant_keywords_fallback := None |}.

(** ** Notions used by the statements *)

(** The characters a normalized text is made of: a kept letter or U+0020. *)
Definition plain (c : N) : Prop := is_letter c = true \/ c = SPACE.

(** No two adjacent whitespace characters, and no leading one when
    [after_space] holds. *)
Fixpoint spaced (after_space : bool) (s : pystr) : bool :=
  match s with
  | [] => true
  | c :: rest =>
    if is_space c then negb after_space && spaced true rest
    else spaced false rest
  end.

(** The steps of [normalize_text] that follow the lower-casing. *)
Definition tidy (s : pystr) : pystr :=
  strip (squeeze_spaces (blank_specials s)).

(** [p] is a literal substring of [s]. *)
Definition occurs_in (p s : pystr) : Prop :=
  exists before after, s = before ++ p ++ after.

(** Some trigger phrase of the entry is a substring of the normalized
    query. *)
Definition triggers (normalized_query : pystr) (intent_data : intent_entry)
  : Prop :=
  exists phrases phrase,
    intent_data !! intentions_utilisateur = Some phrases
    /\ phrase ∈ phrases /\ occurs_in phrase normalized_query.

(** [found] is the key of the first entry of [d], in declared order, that
    triggers on the normalized query, or [None] when no entry does. *)
Definition first_match (normalized_query : pystr) (d : juridical_dictionary)
    (found : option pystr) : Prop :=
  match found with
  | Some intent_key =>
    exists before intent_data after,
      d = before ++ (intent_key, intent_data) :: after
      /\ Forall (fun item => ~ triggers normalized_query item.2) before
      /\ triggers normalized_query intent_data
  | None => Forall (fun item => ~ triggers normalized_query item.2) d
  end.

(** The entry of a dictionary item carries the field [name]. *)
Definition has_field (name : pystr) (item : pystr * intent_entry) : Prop :=
  is_Some (item.2 !! name).

(** The schema of the dictionary source: keys are unique (it is a mapping)
    and every entry carries the five required fields. *)
Definition required_fields : list pystr :=
  [intentions_utilisateur; concepts_juridiques_centrals;
   termes_juridiques_textes; codes_cibles; articles_cibles].

Definition well_formed (d : juridical_dictionary) : Prop :=
  NoDup d.*1
  /\ forall name, name ∈ required_fields -> Forall (has_field name) d.

Section MetricsSpec.
Context {L : StrLower} {F : Type} {O : FloatOps F}.

(** The positions, numbered from [start], of the results of the window
    that are judged relevant. *)
Definition relevant_positions (start : Z) (window : ranked F)
    (relevant_keywords : list pystr) : list Z :=
  map fst
    (List.filter
       (fun p => is_relevant (doc_text (fst (snd p))) relevant_keywords)
       (zip (seqZ start (Z.of_nat (length window))) window)).

(** The gains [1 / log2(i + 1)] of the given positions, accumulated from
    [0.0] in the order of the positions. *)
Definition accumulate (positions : list Z) : F :=
  fold_left (fun acc i => f_add acc (gain i)) positions f_zero.

(** nDCG as the specification words it, over a given window of results:
    [0.0] when no result of the window is relevant, and otherwise DCG over
    the 1-based positions of its relevant results divided by IDCG over the
    positions [1 .. count]. *)
Definition ndcg_over (window : ranked F) (relevant_keywords : list pystr)
  : pynum F :=
  let found := relevant_positions 1 window relevant_keywords in
  if decide (found = []) then PyFloat f_zero
  else PyFloat (f_div (accumulate found)
                      (accumulate (seqZ 1 (Z.of_nat (length found))))).

End MetricsSpec.

(** * The rest of the modules *)

Set Warnings "-register-all".

(** ** The corpus loaders *)

(** [s.endswith(suffix)] *)
Definition ends_with (suffix s : pystr) : bool :=
  starts_with (rev suffix) (rev s).

(** [s.split(sep, 1)[1]] for a one-character separator that occurs in
    [s]: what follows its first occurrence. *)
Fixpoint after_first (sep : N) (s : pystr) : pystr :=
  match s with
  | [] => []
  | c :: rest => if c =? sep then rest else after_first sep rest
  end.

(** [len(s)] as a Python integer. *)
Definition py_len {A : Type} (l : list A) : Z := Z.of_nat (length l).

(** An [xml.etree.ElementTree] element: tag, text, tail and children. *)
Inductive element :=
  | Element (tag : pystr) (text tail : option pystr)
            (children : list element).

Definition elem_tag (e : element) : pystr :=
  match e with Element tag _ _ _ => tag end.
Definition elem_text (e : element) : option pystr :=
  match e with Element _ text _ _ => text end.
Definition elem_tail (e : element) : option pystr :=
  match e with Element _ _ tail _ => tail end.
Definition elem_children (e : element) : list element :=
  match e with Element _ _ _ children => children end.

(** [root.iter()]: the element and its descendants in document order. *)
Fixpoint elem_iter (e : element) : list element :=
  match e with
  | Element _ _ _ children =>
    e :: (fix over (cs : list element) : list element :=
            match cs with
            | [] => []
            | c :: rest => elem_iter c ++ over rest
            end) children
  end.

(** What the loaders read from outside: the directory walk [os.walk],
    [os.path.join], the outcome of [ET.parse] on a path ([None] when it
    raises), the lines of a text file ([None] when the path does not
    exist). *)
Class FileSystem := {
  os_walk : pystr -> list (pystr * list pystr);
  path_join : pystr -> pystr -> pystr;
  et_parse : pystr -> option element;
  read_lines : pystr -> option (list pystr)
}.

Definition xml_ext : pystr := Eval vm_compute in u ".xml".
Definition key_doc_id : pystr := Eval vm_compute in u "doc_id".
Definition key_text : pystr := Eval vm_compute in u "text".
Definition key_meta : pystr := Eval vm_compute in u "meta".
Definition key_titre : pystr := Eval vm_compute in u "titre".
Definition key_meta_titre : pystr := Eval vm_compute in u "meta.titre".

Module CorpusLoader.

(** A document as [load_documents] builds it: [{doc_id, text}]. *)
Record raw_document := {
  doc_id : pystr;
  text : pystr
}.

(** The loop of [extract_text_from_xml] over [root.iter()]. *)
Fixpoint collect_texts (elems : list element) : list pystr :=
  match elems with
  | [] => []
  | elem :: rest =>
    match elem_text elem with
    | Some (c :: t) => strip (c :: t) :: collect_texts rest
    | _ => collect_texts rest
    end
  end.

(** [None] stands for the exception caught by [except Exception]. *)
Definition extract_text_from_xml {W : FileSystem} (xml_path : pystr)
  : option pystr :=
  match et_parse xml_path with
  | Some root => Some (join [SPACE] (collect_texts (elem_iter root)))
  | None => None
  end.

(** The inner loop of [load_documents], over the files of one directory. *)
Fixpoint load_files {L : StrLower} {W : FileSystem} (root_dir : pystr)
    (files : list pystr) (documents : list raw_document)
  : list raw_document :=
  match files with
  | [] => documents
  | file :: rest =>
    if ends_with xml_ext (str_lower file) then
      let full_path := path_join root_dir file in
      match extract_text_from_xml full_path with
      | Some (c :: t) =>
        if (200 <? py_len (c :: t))%Z
        then load_files root_dir rest
               (documents ++ [{| doc_id := full_path; text := c :: t |}])
        else load_files root_dir rest documents
      | _ => load_files root_dir rest documents
      end
    else load_files root_dir rest documents
  end.

(** The outer loop, over [os.walk(data_root)]. *)
Fixpoint load_dirs {L : StrLower} {W : FileSystem}
    (walk : list (pystr * list pystr)) (documents : list raw_document)
  : list raw_document :=
  match walk with
  | [] => documents
  | (root_dir, files) :: rest =>
    load_dirs rest (load_files root_dir files documents)
  end.

Definition load_documents {L : StrLower} {W : FileSystem}
    (data_root : pystr) : list raw_document :=
  load_dirs (os_walk data_root) [].

Definition filter_documents_by_substring {L : StrLower}
    (documents : list raw_document) (required_substring : pystr)
  : list raw_document :=
  let required := str_lower required_substring in
  List.filter (fun doc => contains required (str_lower (text doc))) documents.

End CorpusLoader.

(** Python values as [json.loads] builds them; numbers are kept
    abstract. *)
Inductive json (Num : Type) :=
  | JNull
  | JBool (b : bool)
  | JNum (n : Num)
  | JStr (s : pystr)
  | JList (items : list (json Num))
  | JDict (fields : list (pystr * json Num)).
Arguments JNull {Num}.
Arguments JBool {Num} b.
Arguments JNum {Num} n.
Arguments JStr {Num} s.
Arguments JList {Num} items.
Arguments JDict {Num} fields.

(** What Python provides on these values: the truth value of a number,
    [str] of a value that is not a string, and [json.loads] ([None] when
    it raises [JSONDecodeError]). *)
Class PyJson (Num : Type) := {
  num_truthy : Num -> bool;
  py_repr : json Num -> pystr;
  json_loads : pystr -> option (json Num)
}.

(** Exceptions of the loaders, and outcomes of fallible calls. *)
Inductive loader_exn :=
  | FileNotFoundError (message : pystr)
  | AttributeError
  | ValueError (message : pystr).

Inductive outcome (A : Type) :=
  | Returned (a : A)
  | Threw (e : loader_exn).
Arguments Returned {A} a.
Arguments Threw {A} e.

#[global] Instance outcome_bind : MBind outcome := fun A B f m =>
  match m with
  | Returned a => f a
  | Threw e => Threw e
  end.

Module CorpusLoaderJsonl.

Section WithValues.
Context {L : StrLower} {W : FileSystem} {Num : Type} {J : PyJson Num}.

Definition truthy (v : json Num) : bool :=
  match v with
  | JNull => false
  | JBool b => b
  | JNum n => num_truthy n
  | JStr s => match s with [] => false | _ => true end
  | JList items => match items with [] => false | _ => true end
  | JDict fields => match fields with [] => false | _ => true end
  end.

(** [str(v)] *)
Definition py_str (v : json Num) : pystr :=
  match v with
  | JStr s => s
  | _ => py_repr v
  end.

(** [d[key]] of a dictionary given by its items. *)
Fixpoint assoc (fields : list (pystr * json Num)) (key : pystr)
  : option (json Num) :=
  match fields with
  | [] => None
  | (k, v) :: rest => if decide (k = key) then Some v else assoc rest key
  end.

(** [v.get(key)]: only dictionaries have the method. *)
Definition py_get (v : json Num) (key : pystr) : outcome (json Num) :=
  match v with
  | JDict fields =>
    Returned (match assoc fields key with Some x => x | None => JNull end)
  | _ => Threw AttributeError
  end.

(** [v or default] *)
Definition py_or (v default : json Num) : json Num :=
  if truthy v then v else default.

Definition strip_tag (tag : pystr) : pystr :=
  if contains [0x7D] tag then after_first 0x7D tag else tag.

(** [strip_xml_namespaces(root)], as the tree it leaves. *)
Fixpoint strip_xml_namespaces (root : element) : element :=
  match root with
  | Element tag text tail children =>
    Element (strip_tag tag) text tail (map strip_xml_namespaces children)
  end.

(** [t.strip()] appended when [t and t.strip()] holds. *)
Definition stripped_part (t : option pystr) : list pystr :=
  match t with
  | Some (c :: s) =>
    match strip (c :: s) with
    | [] => []
    | part => [part]
    end
  | _ => []
  end.

Fixpoint collect_parts (elems : list element) : list pystr :=
  match elems with
  | [] => []
  | elem :: rest =>
    stripped_part (elem_text elem) ++ stripped_part (elem_tail elem)
      ++ collect_parts rest
  end.

Definition extract_text_from_xml (xml_path : pystr)
    (remove_namespaces : bool) : pystr :=
  match et_parse xml_path with
  | Some root =>
    let root := if remove_namespaces then strip_xml_namespaces root
                else root in
    let parts := collect_parts (elem_iter root) in
    let text := join [SPACE] parts in
    strip (squeeze_spaces text)
  | None => []
  end.

(** [limit is not None and n >= limit] *)
Definition reached (limit : option Z) (n : Z) : bool :=
  match limit with
  | Some l => (l <=? n)%Z
  | None => false
  end.

(** The inner loop of [iter_xml_files]: the paths yielded, the count
    reached, and whether the generator returned. *)
Fixpoint iter_names (root_dir : pystr) (files : list pystr)
    (limit_files : option Z) (count : Z) : list pystr * Z * bool :=
  match files with
  | [] => ([], count, false)
  | name :: rest =>
    if negb (ends_with xml_ext (str_lower name))
    then iter_names root_dir rest limit_files count
    else
      let full_path := path_join root_dir name in
      let count := (count + 1)%Z in
      if reached limit_files count then ([full_path], count, true)
      else
        let '(paths, count', stop) :=
          iter_names root_dir rest limit_files count in
        (full_path :: paths, count', stop)
  end.

Fixpoint iter_walk (walk : list (pystr * list pystr))
    (limit_files : option Z) (count : Z) : list pystr :=
  match walk with
  | [] => []
  | (root_dir, files) :: rest =>
    let '(paths, count', stop) :=
      iter_names root_dir files limit_files count in
    if stop then paths else paths ++ iter_walk rest limit_files count'
  end.

(** The paths [iter_xml_files] yields, in order. *)
Definition iter_xml_files (data_root : pystr) (limit_files : option Z)
  : list pystr :=
  iter_walk (os_walk data_root) limit_files 0.

Definition xml_document (xml_path text : pystr) : json Num :=
  JDict [(key_doc_id, JStr xml_path); (key_text, JStr text)].

Fixpoint load_xml_loop (paths : list pystr) (min_text_len : Z)
    (remove_namespaces : bool) (documents : list (json Num))
  : list (json Num) :=
  match paths with
  | [] => documents
  | xml_path :: rest =>
    let text := extract_text_from_xml xml_path remove_namespaces in
    match text with
    | _ :: _ =>
      if (min_text_len <=? py_len text)%Z
      then load_xml_loop rest min_text_len remove_namespaces
             (documents ++ [xml_document xml_path text])
      else load_xml_loop rest min_text_len remove_namespaces documents
    | [] => load_xml_loop rest min_text_len remove_namespaces documents
    end
  end.

Definition load_documents_from_xml (data_root : pystr) (min_text_len : Z)
    (limit_files : option Z) (remove_namespaces : bool)
  : list (json Num) :=
  load_xml_loop (iter_xml_files data_root limit_files) min_text_len
                remove_namespaces [].

Definition not_found_message (jsonl_path : pystr) : pystr :=
  u "JSONL introuvable : " ++ jsonl_path.

(** The loop of [load_documents_from_jsonl] over the lines of the file. *)
Fixpoint load_jsonl_loop (lines : list pystr) (min_text_len : Z)
    (limit_lines : option Z) (chunks : list (json Num))
  : outcome (list (json Num)) :=
  match lines with
  | [] => Returned chunks
  | line :: rest =>
    if reached limit_lines (py_len chunks) then Returned chunks
    else
      let line := strip line in
      match line with
      | [] => load_jsonl_loop rest min_text_len limit_lines chunks
      | _ :: _ =>
        match json_loads line with
        | None => load_jsonl_loop rest min_text_len limit_lines chunks
        | Some obj =>
          doc_id ← py_get obj key_doc_id;
          text ← py_get obj key_text;
          match text with
          | JStr s =>
            if negb (truthy doc_id)
            then load_jsonl_loop rest min_text_len limit_lines chunks
            else if (py_len s <? min_text_len)%Z
            then load_jsonl_loop rest min_text_len limit_lines chunks
            else load_jsonl_loop rest min_text_len limit_lines
                   (chunks ++ [obj])
          | _ => load_jsonl_loop rest min_text_len limit_lines chunks
          end
        end
      end
  end.

Definition load_documents_from_jsonl (jsonl_path : pystr)
    (min_text_len : Z) (limit_lines : option Z)
  : outcome (list (json Num)) :=
  match read_lines jsonl_path with
  | None => Threw (FileNotFoundError (not_found_message jsonl_path))
  | Some lines => load_jsonl_loop lines min_text_len limit_lines []
  end.

(** The local function [get_field] of [filter_documents_by_substring]. *)
Definition get_field (doc : json Num) (key : pystr) : outcome pystr :=
  if decide (key = key_text) then
    v ← py_get doc key_text; Returned (py_str (py_or v (JStr [])))
  else if decide (key = key_doc_id) then
    v ← py_get doc key_doc_id; Returned (py_str (py_or v (JStr [])))
  else if decide (key = key_meta_titre) then
    meta ← py_get doc key_meta;
    v ← py_get (py_or meta (JDict [])) key_titre;
    Returned (py_str (py_or v (JStr [])))
  else Returned [].

(** [get_field(doc, k) for k in search_in], consumed by [join]. *)
Fixpoint get_fields (doc : json Num) (search_in : list pystr)
  : outcome (list pystr) :=
  match search_in with
  | [] => Returned []
  | k :: rest =>
    field ← get_field doc k;
    fields ← get_fields doc rest;
    Returned (field :: fields)
  end.

Fixpoint filter_loop (documents : list (json Num)) (needle : pystr)
    (search_in : list pystr) (out : list (json Num))
  : outcome (list (json Num)) :=
  match documents with
  | [] => Returned out
  | doc :: rest =>
    fields ← get_fields doc search_in;
    let haystack := str_lower (join [SPACE] fields) in
    if contains needle haystack
    then filter_loop rest needle search_in (out ++ [doc])
    else filter_loop rest needle search_in out
  end.

Definition filter_documents_by_substring (documents : list (json Num))
    (required_substring : option pystr) (search_in : list pystr)
  : outcome (list (json Num)) :=
  match required_substring with
  | None | Some [] => Returned documents
  | Some (c :: s) =>
    let needle := str_lower (c :: s) in
    filter_loop documents needle search_in []
  end.

Definition default_search_in : list pystr :=
  [key_text; key_meta_titre; key_doc_id].

Definition bad_source_message : pystr :=
  Eval vm_compute in u "source doit être 'xml' ou 'jsonl'".

Definition load_documents (source path : pystr) (min_text_len : Z)
    (limit : option Z) (remove_namespaces : bool)
  : outcome (list (json Num)) :=
  let src := str_lower (strip source) in
  if decide (src = u "xml") then
    Returned (load_documents_from_xml path min_text_len limit
                                      remove_namespaces)
  else if decide (src = u "jsonl") then
    load_documents_from_jsonl path min_text_len limit
  else Threw (ValueError bad_source_message).

End WithValues.
End CorpusLoaderJsonl.

(** ** Notions used by the further statements *)

(** A ranked pair whose document the keyword oracle accepts. *)
Definition judged_relevant {L : StrLower} {F : Type} (kws : list pystr)
    (p : document * F) : Prop :=
  is_relevant (doc_text p.1) kws = true.

(** An item whose entry has trigger phrases, none of which occurs in the
    normalized query. *)
Definition passed_over (nq : pystr) (item : pystr * intent_entry) : Prop :=
  has_field intentions_utilisateur item /\ ~ triggers nq item.2.

(** Whitespace only as single U+0020 characters between words. *)
Definition whitespace_normal (s : pystr) : Prop :=
  Forall (fun c => is_space c = true -> c = SPACE) s
  /\ head s <> Some SPACE
  /\ last s <> Some SPACE
  /\ forall before after, s <> before ++ [SPACE; SPACE] ++ after.

Section LoaderSpec.
Context {L : StrLower} {W : FileSystem} {Num : Type} {J : PyJson Num}.

Definition is_xml_name (name : pystr) : bool :=
  ends_with xml_ext (str_lower name).

Definition xml_paths_in (root_dir : pystr) (files : list pystr)
  : list pystr :=
  map (path_join root_dir) (List.filter is_xml_name files).

(** Every [.xml] path of a walk, in walk order. *)
Definition all_xml_files (walk : list (pystr * list pystr)) : list pystr :=
  concat (map (fun entry => xml_paths_in entry.1 entry.2) walk).

Definition is_dict (v : json Num) : Prop := exists fields, v = JDict fields.

(** A chunk that [load_documents_from_jsonl] keeps: a dictionary with a
    truthy [doc_id] and a string [text] of at least [min_text_len]
    characters. *)
Definition kept_chunk (min_text_len : Z) (chunk : json Num) : Prop :=
  exists fields id s,
    chunk = JDict fields
    /\ CorpusLoaderJsonl.assoc fields key_doc_id = Some id
    /\ CorpusLoaderJsonl.truthy id = true
    /\ CorpusLoaderJsonl.assoc fields key_text = Some (JStr s)
    /\ (min_text_len <= py_len s)%Z.

(** A line the loop passes without reading a value from it. *)
Definition skipped_line (line : pystr) : Prop :=
  strip line = [] \/ json_loads (Num:=Num) (strip line) = None.

(** The document [load_documents_from_xml] builds from a path it keeps. *)
Definition loaded_from (min_text_len : Z) (flag : bool)
    (paths : list pystr) (doc : json Num) : Prop :=
  exists xml_path,
    xml_path ∈ paths
    /\ doc = CorpusLoaderJsonl.xml_document xml_path
              (CorpusLoaderJsonl.extract_text_from_xml xml_path flag)
    /\ is_Some (et_parse xml_path)
    /\ CorpusLoaderJsonl.extract_text_from_xml xml_path flag <> []
    /\ (min_text_len
        <= py_len (CorpusLoaderJsonl.extract_text_from_xml xml_path flag))%Z.

(** A document the filter can read: a dictionary whose [meta], when
    there is a truthy one, is a dictionary. *)
Definition readable (doc : json Num) : Prop :=
  exists fields,
    doc = JDict fields
    /\ forall meta, CorpusLoaderJsonl.assoc fields key_meta = Some meta ->
         CorpusLoaderJsonl.truthy meta = true -> is_dict meta.

(** A document the notebook's [load_documents] keeps from the walk. *)
Definition loaded_raw (walk : list (pystr * list pystr))
    (doc : CorpusLoader.raw_document) : Prop :=
  exists root_dir files file,
    (root_dir, files) ∈ walk /\ file ∈ files
    /\ ends_with xml_ext (str_lower file) = true
    /\ CorpusLoader.doc_id doc = path_join root_dir file
    /\ CorpusLoader.extract_text_from_xml (CorpusLoader.doc_id doc)
       = Some (CorpusLoader.text doc)
    /\ (200 < py_len (CorpusLoader.text doc))%Z.

(** A [{doc_id, text}] document as a Python dictionary. *)
Definition as_dict (doc : CorpusLoader.raw_document) : json Num :=
  CorpusLoaderJsonl.xml_document (CorpusLoader.doc_id doc)
                                 (CorpusLoader.text doc).

End LoaderSpec.

(** ** A sample corpus for running the loaders *)

Definition quoted (s : pystr) : pystr := [0x22] ++ s ++ [0x22].

(** A file with a namespaced root, padded texts and a blank tail. *)
Definition sample_tree : element :=
  Element (u "{http://legifrance}ARTICLE") None None
    [ Element (u "TITRE") (Some (u "  Article  L1234-1 ")) (Some [0x0A]) [];
      Element (u "CONTENU") (Some (u "Le préavis est dû ")) None [] ].

Definition chunk_line (id text : pystr) : pystr :=
  u "{" ++ quoted key_doc_id ++ u ": " ++ quoted id ++ u ", "
    ++ quoted key_text ++ u ": " ++ quoted text ++ u "}".

Definition chunk_of (id text : pystr) : json Z :=
  JDict [(key_doc_id, JStr id); (key_text, JStr text)].

Definition chunk_preavis : json Z :=
  chunk_of (u "c1") (u "Le préavis est dû").
Definition chunk_faute : json Z :=
  chunk_of (u "c2") (u "Faute grave du salarié").

(** A chunk whose [meta] is a string instead of a mapping. *)
Definition chunk_odd_meta : json Z :=
  JDict [(key_doc_id, JStr (u "c3")); (key_text, JStr (u "Congés payés"));
         (key_meta, JStr (u "brut"))].

Definition sample_lines : list pystr :=
  [ chunk_line (u "c1") (u "Le préavis est dû") ++ [0x0A];
    [0x0A];
    u "pas du json" ++ [0x0A];
    chunk_line (u "c2") (u "Faute grave du salarié") ++ [0x0A] ].

(** The same file with a line holding a JSON list. *)
Definition sample_lines_list : list pystr :=
  [ [0x0A]; u "[]" ++ [0x0A];
    chunk_line (u "c1") (u "Le préavis est dû") ++ [0x0A] ].

Definition sample_fs : FileSystem := {|
  os_walk := fun _ =>
    [(u "data", [u "a.XML"; u "notes.txt"; u "b.xml"]); (u "data/x", [])];
  path_join := fun a b => a ++ u "/" ++ b;
  et_parse := fun p =>
    if decide (p = u "data/a.XML") then Some sample_tree else None;
  read_lines := fun p =>
    if decide (p = u "chunks.jsonl") then Some sample_lines
    else if decide (p = u "liste.jsonl") then Some sample_lines_list
    else None
|}.

(** Values over integer numbers. [py_repr] is exact on [None] and the
    booleans, which is all that the examples render; [json_loads] knows the
    lines of the sample files. *)
Definition sample_json : PyJson Z := {|
  num_truthy := fun n => negb (n =? 0)%Z;
  py_repr := fun v =>
    match v with
    | JNull => u "None"
    | JBool true => u "True"
    | JBool false => u "False"
    | _ => []
    end;
  json_loads := fun s =>
    if decide (s = chunk_line (u "c1") (u "Le préavis est dû"))
    then Some chunk_preavis
    else if decide (s = chunk_line (u "c2") (u "Faute grave du salarié"))
    then Some chunk_faute
    else if decide (s = u "[]") then Some (JList [])
    else None
|}.

Definition raw_preavis : CorpusLoader.raw_document :=
  {| CorpusLoader.doc_id := u "c1";
     CorpusLoader.text := u "Le préavis est dû" |}.
Definition raw_faute : CorpusLoader.raw_document :=
  {| CorpusLoader.doc_id := u "c2";
     CorpusLoader.text := u "Faute grave du salarié" |}.



Definition no_terms_entry : intent_entry :=
  {[ intentions_utilisateur := [u "sans préavis"];
     concepts_juridiques_centrals := [u "faute grave"] ]}.

(** The result of the pipeline on [query_cdi]. *)
Definition result_cdi : gmap pystr pyval :=
  {[ intent_detected := VStr (u "rupture_sans_preavis");
     enriched_query :=
       VStr (query_cdi ++ u " faute grave faute lourde licenciement");
     codes_cibles := VList [u "code du travail"];
     articles_cibles := VList [u "L1234-1"] ]}.

(** * Properties *)

(** ** Strings: occurrence, stripping *)

Lemma starts_with_spec (p s : pystr) :
  starts_with p s = true <-> exists rest, s = p ++ rest.
Proof.
  revert s; induction p as [|a p IH]; intros s; simpl.
  - split; [intros _; by exists s | done].
  - destruct s as [|b s].
    + split; [done | intros [r Hr]; discriminate].
    + rewrite andb_true_iff, N.eqb_eq, IH. split.
      * intros [-> [r ->]]. by exists r.
      * intros [r Hr]. injection Hr as -> ->. eauto.
Qed.

Lemma contains_spec (p s : pystr) :
  contains p s = true <-> occurs_in p s.
Proof.
  unfold occurs_in. induction s as [|b s IH]; simpl.
  - rewrite orb_false_r, starts_with_spec. split.
    + intros [r Hr]. by exists [], r.
    + intros (before & after & Hs). destruct before; [|done].
      simpl in Hs. by exists after.
  - rewrite orb_true_iff, starts_with_spec, IH. split.
    + intros [[r Hr] | (before & after & ->)].
      * by exists [], r.
      * by exists (b :: before), after.
    + intros (before & after & Hs). destruct before as [|c before].
      * left. by exists after.
      * right. injection Hs as -> ->. eauto.
Qed.

Lemma lstrip_idem (s : pystr) : lstrip (lstrip s) = lstrip s.
Proof.
  induction s as [|c s IH]; [done|]. simpl.
  destruct (is_space c) eqn:E; [done|]. simpl. by rewrite E.
Qed.

Lemma rstrip_idem (s : pystr) : rstrip (rstrip s) = rstrip s.
Proof.
  induction s as [|c s IH]; [done|]. simpl.
  destruct (rstrip s) as [|d r] eqn:E.
  - destruct (is_space c) eqn:Ec; [done|]. simpl. by rewrite Ec.
  - change (rstrip (c :: d :: r)) with
      (match rstrip (d :: r) with
       | [] => if is_space c then [] else [c]
       | x :: y => c :: x :: y
       end).
    by rewrite IH.
Qed.

Lemma lstrip_suffix (s : pystr) : exists pre, s = pre ++ lstrip s.
Proof.
  induction s as [|c s [pre IH]]; [by exists []|]. simpl.
  destruct (is_space c); [|by exists []]. exists (c :: pre). simpl.
  by f_equal.
Qed.

Lemma rstrip_prefix (s : pystr) : exists post, s = rstrip s ++ post.
Proof.
  induction s as [|c s [post IH]]; [by exists []|]. simpl.
  destruct (rstrip s) as [|d r] eqn:E.
  - destruct (is_space c); [by exists (c :: s)|]. exists post. simpl.
    by f_equal.
  - exists post. simpl. by f_equal.
Qed.

Lemma join_occurs (sep t : pystr) (parts : list pystr) :
  t ∈ parts -> occurs_in t (join sep parts).
Proof.
  induction parts as [|p ps IH]; intros Ht; [by apply elem_of_nil in Ht|].
  destruct ps as [|p' ps].
  - apply list_elem_of_singleton in Ht as ->. exists [], []. simpl.
    by rewrite app_nil_r.
  - change (join sep (p :: p' :: ps)) with (p ++ sep ++ join sep (p' :: ps)).
    apply elem_of_cons in Ht as [->|Ht].
    + by exists [], (sep ++ join sep (p' :: ps)).
    + destruct (IH Ht) as (b & a & ->). exists (p ++ sep ++ b), a.
      by rewrite <- !app_assoc.
Qed.

(** ** Normalization *)

(** Decides the comparisons of a goal whose characters are bounded by
    hypotheses. *)
Ltac settle_cmp :=
  repeat match goal with
  | |- context [?a <=? ?b] =>
    first [ replace (a <=? b) with true by (symmetry; apply N.leb_le; lia)
          | replace (a <=? b) with false by (symmetry; apply N.leb_gt; lia) ]
  | |- context [?a =? ?b] =>
    first [ replace (a =? b) with false by (symmetry; apply N.eqb_neq; lia)
          | replace (a =? b) with true by (symmetry; apply N.eqb_eq; lia) ]
  end.

Lemma is_letter_cases (c : N) :
  is_letter c = true -> (0x61 <= c <= 0x7A) \/ In c accented.
Proof.
  unfold is_letter.
  rewrite orb_true_iff, andb_true_iff, !N.leb_le, existsb_exists.
  intros [?|[x [Hx Hc]]]; [by left|right]. apply N.eqb_eq in Hc. by subst.
Qed.

Lemma letter_not_space (c : N) : is_letter c = true -> is_space c = false.
Proof.
  intros Hc. apply is_letter_cases in Hc as [Hc|Hc].
  - unfold is_space. by settle_cmp.
  - simpl in Hc. repeat destruct Hc as [<-|Hc]; try reflexivity. done.
Qed.

Lemma plain_space (c : N) : plain c -> is_space c = true -> c = SPACE.
Proof.
  intros [Hc|Hc] Hs; [|done]. apply letter_not_space in Hc. congruence.
Qed.

(** Each step is the identity on a text that is already in normal form. *)
Lemma blank_specials_plain (s : pystr) :
  Forall plain s -> blank_specials s = s.
Proof.
  induction 1 as [|c s Hc _ IH]; [done|]. unfold blank_specials in *.
  simpl. rewrite IH. destruct Hc as [->| ->]; done.
Qed.

Lemma collapse_spaced (b : bool) (s : pystr) :
  Forall plain s -> spaced b s = true -> collapse b s = s.
Proof.
  intros Hs. revert b. induction Hs as [|c s Hc _ IH]; intros b; [done|].
  simpl. destruct (is_space c) eqn:E.
  - rewrite andb_true_iff, negb_true_iff. intros [-> Hr].
    rewrite (plain_space c Hc E). by rewrite IH.
  - intros Hr. by rewrite IH.
Qed.

Lemma lstrip_spaced (s : pystr) : spaced true s = true -> lstrip s = s.
Proof. destruct s as [|c s]; [done|]. simpl. by destruct (is_space c). Qed.

Lemma spaced_weaken (s : pystr) : spaced true s = true -> spaced false s = true.
Proof. destruct s as [|c s]; [done|]. simpl. by destruct (is_space c). Qed.

(** What each step establishes. *)
Lemma blank_specials_kept (s : pystr) :
  Forall (fun c => is_letter c = true \/ is_space c = true) (blank_specials s).
Proof.
  induction s as [|c s IH]; constructor; [|done].
  destruct (is_letter c) eqn:E1; [by left|].
  destruct (is_space c) eqn:E2; simpl; by right.
Qed.

Lemma collapse_plain (b : bool) (s : pystr) :
  Forall (fun c => is_letter c = true \/ is_space c = true) s ->
  Forall plain (collapse b s).
Proof.
  intros Hs. revert b.
  induction Hs as [|c s Hc _ IH]; intros b; [constructor|]. simpl.
  destruct (is_space c) eqn:E.
  - destruct b; [done|]. constructor; [by right|done].
  - constructor; [|done]. destruct Hc; [by left|congruence].
Qed.

Lemma collapse_is_spaced (b : bool) (s : pystr) :
  spaced b (collapse b s) = true.
Proof.
  revert b. induction s as [|c s IH]; intros b; [done|]. simpl.
  destruct (is_space c) eqn:E.
  - destruct b; [done|]. simpl. done.
  - simpl. by rewrite E.
Qed.

Lemma strip_plain (s : pystr) : Forall plain s -> Forall plain (strip s).
Proof.
  intros Hs. unfold strip.
  destruct (lstrip_suffix s) as [pre Hpre].
  destruct (rstrip_prefix (lstrip s)) as [post Hpost].
  rewrite Hpre, Hpost in Hs. apply Forall_app in Hs as [_ Hs].
  by apply Forall_app in Hs as [Hs _].
Qed.

Lemma lstrip_keeps_spaced (b : bool) (s : pystr) :
  spaced b s = true -> spaced true (lstrip s) = true.
Proof.
  revert b. induction s as [|c s IH]; intros b; [done|]. simpl.
  destruct (is_space c) eqn:E.
  - rewrite andb_true_iff. intros [_ Hr]. by apply (IH true).
  - intros Hr. simpl. by rewrite E.
Qed.

Lemma spaced_cons (b : bool) (c : N) (s : pystr) :
  spaced b (c :: s) =
  if is_space c then negb b && spaced true s else spaced false s.
Proof. done. Qed.

Lemma rstrip_keeps_spaced (b : bool) (s : pystr) :
  spaced b s = true -> spaced b (rstrip s) = true.
Proof.
  revert b. induction s as [|c s IH]; intros b; [done|]. simpl.
  destruct (rstrip s) as [|d r] eqn:E.
  - destruct (is_space c) eqn:Ec; [done|]. intros _. simpl. by rewrite Ec.
  - rewrite spaced_cons. destruct (is_space c) eqn:Ec.
    + rewrite andb_true_iff. intros [Hb Hr]. rewrite Hb. by apply IH.
    + intros Hr. by apply IH.
Qed.

Lemma tidy_plain (s : pystr) : Forall plain (tidy s).
Proof. apply strip_plain, collapse_plain, blank_specials_kept. Qed.

Lemma tidy_spaced (s : pystr) : spaced true (tidy s) = true.
Proof.
  unfold tidy, strip.
  apply rstrip_keeps_spaced, (lstrip_keeps_spaced false), collapse_is_spaced.
Qed.

Lemma tidy_idem (s : pystr) : tidy (tidy s) = tidy s.
Proof.
  pose proof (tidy_plain s) as Hp. pose proof (tidy_spaced s) as Hs.
  unfold tidy at 1. rewrite (blank_specials_plain _ Hp).
  unfold squeeze_spaces.
  rewrite (collapse_spaced false _ Hp (spaced_weaken _ Hs)).
  unfold strip. rewrite (lstrip_spaced _ Hs).
  unfold tidy, strip. apply rstrip_idem.
Qed.

Lemma normalize_text_plain {L : StrLower} (x : pystr) :
  Forall plain (normalize_text x).
Proof. apply tidy_plain. Qed.

(** C6: text normalization is idempotent, for every lower-casing that
    leaves alone the strings made of kept letters and U+0020 (as
    [str.lower] does: these letters are lower-case already). *)
Theorem normalize_text_idempotent {L : StrLower} (x : pystr) :
  (forall s, Forall plain s -> str_lower s = s) ->
  normalize_text (normalize_text x) = normalize_text x.
Proof.
  intros Hlow.
  change (normalize_text (normalize_text x))
    with (tidy (str_lower (tidy (str_lower x)))).
  rewrite (Hlow _ (tidy_plain _)). apply tidy_idem.
Qed.

Lemma lower_char_plain (c : N) : plain c -> lower_char c = [c].
Proof.
  intros [Hc| ->]; [|done]. apply is_letter_cases in Hc as [Hc|Hc].
  - unfold lower_char. by settle_cmp.
  - simpl in Hc. repeat destruct Hc as [<-|Hc]; try reflexivity. done.
Qed.

Lemma lower_latin_plain (s : pystr) : Forall plain s -> lower_latin s = s.
Proof.
  induction 1 as [|c s Hc _ IH]; [done|]. unfold lower_latin in *. simpl.
  by rewrite IH, lower_char_plain.
Qed.

(** ** Intent detection and enrichment *)

Lemma get_field_Some (e : intent_entry) (name : pystr) (v : list pystr) :
  e !! name = Some v -> get_field e name = Ok v.
Proof. unfold get_field. by intros ->. Qed.

Lemma phrase_found_spec (phrases : list pystr) (nq : pystr) :
  phrase_found phrases nq = true
  <-> exists phrase, phrase ∈ phrases /\ occurs_in phrase nq.
Proof.
  induction phrases as [|p ps IH]; simpl.
  - split; [done|]. intros (? & Hin & _). by apply elem_of_nil in Hin.
  - destruct (contains p nq) eqn:E.
    + split; [intros _|done]. exists p. split; [left|].
      by apply contains_spec.
    + rewrite IH. split.
      * intros (q & Hq & Ho). exists q. split; [by right|done].
      * intros (q & Hq & Ho). apply elem_of_cons in Hq as [->|Hq]; [|eauto].
        apply contains_spec in Ho. congruence.
Qed.

Lemma triggers_spec (nq : pystr) (e : intent_entry) (phrases : list pystr) :
  e !! intentions_utilisateur = Some phrases ->
  phrase_found phrases nq = true <-> triggers nq e.
Proof.
  intros He. rewrite phrase_found_spec. unfold triggers. split.
  - intros (p & ? & ?). by exists phrases, p.
  - intros (ps & p & Hps & ? & ?). rewrite He in Hps. injection Hps as <-.
    eauto.
Qed.

(** The loop stops at the first entry that triggers, and only there. *)
Lemma detect_loop_first_match (nq : pystr) (d : juridical_dictionary) :
  Forall (has_field intentions_utilisateur) d ->
  exists found, detect_loop nq d = Ok found /\ first_match nq d found.
Proof.
  induction 1 as [|[k e] d [phrases He] _ IH].
  { exists None. split; [done|constructor]. }
  simpl in He. simpl. rewrite (get_field_Some _ _ _ He). simpl.
  destruct (phrase_found phrases nq) eqn:E.
  - exists (Some k). split; [done|]. exists [], e, d.
    repeat split; [constructor|]. by apply (triggers_spec nq e phrases He).
  - assert (~ triggers nq e) as Hno.
    { rewrite <- (triggers_spec nq e phrases He). congruence. }
    destruct IH as ([k'|] & Hd & Hm); rewrite Hd.
    + destruct Hm as (before & e' & after & -> & Hb & Ht).
      exists (Some k'). split; [done|]. exists ((k, e) :: before), e', after.
      repeat split; [by constructor|done].
    + exists None. split; [done|]. by constructor.
Qed.

Lemma detect_loop_none (nq : pystr) (d : juridical_dictionary) :
  Forall (has_field intentions_utilisateur) d ->
  Forall (fun item => ~ triggers nq item.2) d ->
  detect_loop nq d = Ok None.
Proof.
  intros Hwf Hno.
  destruct (detect_loop_first_match nq d Hwf) as ([k|] & Hd & Hm); [|done].
  destruct Hm as (b & e & a & -> & _ & Ht).
  apply Forall_app in Hno as [_ Hno]. apply Forall_cons in Hno as [Hno _].
  by destruct Hno.
Qed.

(** There is one first match at most. *)
Lemma first_match_unique (nq : pystr) (d : juridical_dictionary)
    (found found' : option pystr) :
  first_match nq d found -> first_match nq d found' -> found = found'.
Proof.
  destruct found as [k|], found' as [k'|]; simpl; [| | |done].
  - intros (b & e & a & -> & Hb & Ht) (b' & e' & a' & Hd & Hb' & Ht').
    revert b' Hd Hb'. induction b as [|x b IH]; intros [|y b'] Hd Hb'.
    + by injection Hd as -> _ _.
    + injection Hd as <- _. apply Forall_cons in Hb' as [Hy _].
      by destruct Hy.
    + injection Hd as -> _. apply Forall_cons in Hb as [Hx _].
      by destruct Hx.
    + injection Hd as _ Hd. apply Forall_cons in Hb as [_ Hb].
      apply Forall_cons in Hb' as [_ Hb']. by apply (IH Hb b').
  - intros (b & e & a & -> & _ & Ht) Hno.
    apply Forall_app in Hno as [_ Hno]. apply Forall_cons in Hno as [Hno _].
    by destruct Hno.
  - intros Hno (b & e & a & -> & _ & Ht).
    apply Forall_app in Hno as [_ Hno]. apply Forall_cons in Hno as [Hno _].
    by destruct Hno.
Qed.

Lemma dict_get_missing (d : juridical_dictionary) (k : pystr) :
  k ∉ d.*1 -> dict_get d k = Raise (KeyError k).
Proof.
  induction d as [|[k' e] d IH]; [done|]. simpl. intros Hk.
  apply not_elem_of_cons in Hk as [Hne Hk].
  destruct (decide (k' = k)); [congruence|auto].
Qed.

Lemma dict_get_present (d : juridical_dictionary) (k : pystr) :
  k ∈ d.*1 -> exists e, (k, e) ∈ d /\ dict_get d k = Ok e.
Proof.
  induction d as [|[k' e] d IH]; simpl; intros Hk;
    [by apply elem_of_nil in Hk|].
  destruct (decide (k' = k)) as [->|Hne].
  - exists e. split; [left|done].
  - apply elem_of_cons in Hk as [?|Hk]; [congruence|].
    destruct (IH Hk) as (e' & ? & ?). exists e'. split; [by right|done].
Qed.

(** With unique keys, looking a key up yields the entry declared under
    it, wherever it stands. *)
Lemma dict_get_unique (before after : juridical_dictionary) (k : pystr)
    (e : intent_entry) :
  NoDup (before ++ (k, e) :: after).*1 ->
  dict_get (before ++ (k, e) :: after) k = Ok e.
Proof.
  induction before as [|[k' e'] before IH]; simpl.
  - intros _. by destruct (decide (k = k)).
  - intros Hnd. apply NoDup_cons in Hnd as [Hk' Hnd].
    destruct (decide (k' = k)) as [->|Hne]; [|auto].
    exfalso. apply Hk'. rewrite fmap_app. apply elem_of_app. right. left.
Qed.

Section Pipeline.
Context {L : StrLower}.

(** C7: [detect_intention] normalizes the query and walks the entries in
    their declared order; it returns the key of the first entry one of
    whose trigger phrases is a substring of the normalized query, and
    [None] when no entry has one. *)
Theorem detect_intention_first_match (query : pystr)
    (d : juridical_dictionary) :
  Forall (has_field intentions_utilisateur) d ->
  exists found,
    detect_intention query d = Ok found
    /\ first_match (normalize_text query) d found
    /\ forall found',
         first_match (normalize_text query) d found' -> found' = found.
Proof.
  intros Hwf. unfold detect_intention.
  destruct (detect_loop_first_match (normalize_text query) d Hwf)
    as (found & Hdet & Hm).
  exists found. split; [done|]. split; [done|].
  intros found' Hm'. by apply (first_match_unique (normalize_text query) d).
Qed.

(** C4: when the normalized query contains no trigger phrase of any
    entry, the pipeline reports no intent and returns the query
    unchanged. *)
Theorem process_user_query_no_intent (query : pystr)
    (d : juridical_dictionary) :
  Forall (has_field intentions_utilisateur) d ->
  Forall (fun item => ~ triggers (normalize_text query) item.2) d ->
  exists r, process_user_query query d = Ok r
    /\ r !! intent_detected = Some VNone
    /\ r !! enriched_query = Some (VStr query).
Proof.
  intros Hwf Hno. unfold process_user_query, detect_intention.
  rewrite (detect_loop_none _ _ Hwf Hno). simpl.
  eexists. split; [reflexivity|]. split; reflexivity.
Qed.

(** C3: enriching with an intent key that the dictionary does not have
    fails: the lookup [dictionary[intent_key]] raises [KeyError] on that
    key, before anything else is read. *)
Theorem enrich_query_missing_key (query intent_key : pystr)
    (d : juridical_dictionary) :
  intent_key ∉ d.*1 ->
  enrich_query query intent_key d = Raise (KeyError intent_key).
Proof.
  intros Hk. unfold enrich_query. by rewrite (dict_get_missing _ _ Hk).
Qed.

(** C8: for a key of the dictionary, the enriched query is the query
    itself, one space, and the entry's [concepts_juridiques_centrals]
    followed by its [termes_juridiques_textes], joined by spaces. *)
Theorem enrich_query_result (query intent_key : pystr)
    (d : juridical_dictionary) :
  intent_key ∈ d.*1 ->
  Forall (has_field concepts_juridiques_centrals) d ->
  Forall (has_field termes_juridiques_textes) d ->
  exists intent_data concepts termes,
    dict_get d intent_key = Ok intent_data
    /\ intent_data !! concepts_juridiques_centrals = Some concepts
    /\ intent_data !! termes_juridiques_textes = Some termes
    /\ enrich_query query intent_key d
       = Ok (query ++ [SPACE] ++ join [SPACE] (concepts ++ termes)).
Proof.
  intros Hk Hc Ht. destruct (dict_get_present _ _ Hk) as (e & Hin & Hget).
  rewrite Forall_forall in Hc, Ht.
  destruct (Hc _ Hin) as [cs Hcs]. destruct (Ht _ Hin) as [ts Hts].
  simpl in *. exists e, cs, ts. repeat split; try done.
  unfold enrich_query. rewrite Hget. simpl.
  rewrite (get_field_Some _ _ _ Hcs). simpl.
  by rewrite (get_field_Some _ _ _ Hts).
Qed.

(** Scenario D: the enriched query contains every configured term. *)
Lemma enriched_contains (query t : pystr) (terms : list pystr) :
  t ∈ terms -> occurs_in t (query ++ [SPACE] ++ join [SPACE] terms).
Proof.
  intros Ht. destruct (join_occurs [SPACE] t terms Ht) as (b & a & ->).
  exists (query ++ [SPACE] ++ b), a. by rewrite <- !app_assoc.
Qed.

(** C5: the result carries [codes_cibles] and [articles_cibles] exactly
    when an intent was detected, with the values of the entry that
    matched, and carries the explanatory [notes] when none was. *)
Theorem process_user_query_fields (query : pystr)
    (d : juridical_dictionary) :
  well_formed d ->
  exists r, process_user_query query d = Ok r
    /\ ((detect_intention query d = Ok None
         /\ r !! codes_cibles = None /\ r !! articles_cibles = None
         /\ r !! notes = Some (VStr no_intent_note))
        \/ (exists intent_key intent_data codes articles,
              detect_intention query d = Ok (Some intent_key)
              /\ (intent_key, intent_data) ∈ d
              /\ triggers (normalize_text query) intent_data
              /\ intent_data !! codes_cibles = Some codes
              /\ intent_data !! articles_cibles = Some articles
              /\ r !! codes_cibles = Some (VList codes)
              /\ r !! articles_cibles = Some (VList articles))).
Proof.
  intros [Hnd Hf]. unfold process_user_query, detect_intention.
  destruct (detect_loop_first_match (normalize_text query) d)
    as ([k|] & Hdet & Hm).
  { apply Hf. left. }
  - destruct Hm as (b & e & a & Hd & _ & Ht).
    rewrite Hdet. simpl. subst d.
    pose proof (dict_get_unique b a k e Hnd) as Hget.
    assert (forall name, name ∈ required_fields -> is_Some (e !! name))
      as He.
    { intros name Hn. specialize (Hf name Hn).
      apply Forall_app in Hf as [_ Hf]. by apply Forall_cons in Hf as [Hf _]. }
    destruct (He concepts_juridiques_centrals) as [cs Hcs]; [set_solver|].
    destruct (He termes_juridiques_textes) as [ts Hts]; [set_solver|].
    destruct (He codes_cibles) as [codes Hcodes]; [set_solver|].
    destruct (He articles_cibles) as [arts Harts]; [set_solver|].
    unfold enrich_query. rewrite Hget. simpl.
    rewrite (get_field_Some _ _ _ Hcs). simpl.
    rewrite (get_field_Some _ _ _ Hts). simpl.
    rewrite (get_field_Some _ _ _ Hcodes). simpl.
    rewrite (get_field_Some _ _ _ Harts). simpl.
    eexists. split; [reflexivity|]. right. exists k, e, codes, arts.
    repeat split; try done. apply elem_of_app. right. left.
  - rewrite Hdet. simpl. eexists. split; [reflexivity|]. left.
    repeat split; reflexivity.
Qed.

End Pipeline.

(** ** Metrics *)

Section MetricsFacts.
Context {L : StrLower} {F : Type} {O : FloatOps F}.
Implicit Types (results window : ranked F) (kws : list pystr).
Local Open Scope Z_scope.

Lemma slice_to_take results k :
  0 <= k -> slice_to results k = take (Z.to_nat k) results.
Proof. intros Hk. unfold slice_to. by rewrite (proj2 (Z.leb_le 0 k) Hk). Qed.

Lemma slice_to_negative results k :
  k < 0 ->
  slice_to results k = take (length results - Z.to_nat (- k)) results.
Proof. intros Hk. unfold slice_to. by rewrite (proj2 (Z.leb_gt 0 k) Hk). Qed.

Lemma slice_to_empty_window results k :
  k < 1 -> k = 0 \/ Z.of_nat (length results) <= - k ->
  slice_to results k = [].
Proof.
  intros Hk Hlen. destruct (decide (k = 0)) as [->|Hne]; [done|].
  rewrite slice_to_negative by lia.
  replace (length results - Z.to_nat (- k))%nat with 0%nat by lia.
  by rewrite take_0.
Qed.

Lemma slice_to_nil (k : Z) : slice_to ([] : ranked F) k = [].
Proof. unfold slice_to. destruct (0 <=? k); by rewrite take_nil. Qed.

Lemma relevant_positions_cons start doc score window kws :
  relevant_positions start ((doc, score) :: window) kws =
  if is_relevant (doc_text doc) kws
  then start :: relevant_positions (start + 1) window kws
  else relevant_positions (start + 1) window kws.
Proof.
  unfold relevant_positions. rewrite seqZ_cons by (simpl; lia).
  replace (Z.pred (Z.of_nat (length ((doc, score) :: window))))
    with (Z.of_nat (length window)) by (simpl; lia).
  simpl. replace (Z.succ start) with (start + 1) by lia.
  by destruct (is_relevant (doc_text doc) kws).
Qed.

(** [relevant_positions] lists exactly the positions of the window that
    hold a relevant document. *)
Lemma relevant_positions_elem start window kws (i : Z) :
  i ∈ relevant_positions start window kws
  <-> exists doc score,
        start <= i
        /\ window !! Z.to_nat (i - start) = Some (doc, score)
        /\ is_relevant (doc_text doc) kws = true.
Proof.
  revert start. induction window as [|[doc score] window IH]; intros start.
  - split; [intros Hi; by apply elem_of_nil in Hi|].
    by intros (? & ? & _ & ? & _).
  - rewrite relevant_positions_cons. split.
    + intros Hi.
      assert (i = start /\ is_relevant (doc_text doc) kws = true
              \/ i ∈ relevant_positions (start + 1) window kws) as [[-> E]|Hi'].
      { destruct (is_relevant (doc_text doc) kws); [|by right].
        apply elem_of_cons in Hi as [->|Hi]; [by left|by right]. }
      * exists doc, score. rewrite Z.sub_diag. repeat split; [lia|done].
      * apply IH in Hi' as (d & s & Hle & Hl & Hr). exists d, s.
        replace (Z.to_nat (i - start))
          with (S (Z.to_nat (i - (start + 1)))) by lia.
        repeat split; [lia|done|done].
    + intros (d & s & Hle & Hl & Hr).
      destruct (decide (i = start)) as [->|Hne].
      * rewrite Z.sub_diag in Hl. simpl in Hl. injection Hl as <- <-.
        rewrite Hr. left.
      * assert (i ∈ relevant_positions (start + 1) window kws) as Hi.
        { apply IH. exists d, s.
          replace (Z.to_nat (i - start))
            with (S (Z.to_nat (i - (start + 1)))) in Hl by lia.
          repeat split; [lia|done|done]. }
        destruct (is_relevant (doc_text doc) kws); [by right|done].
Qed.

Lemma relevant_positions_nil start window kws :
  relevant_positions start window kws = []
  <-> Forall (fun p => is_relevant (doc_text p.1) kws = false) window.
Proof.
  revert start. induction window as [|[doc score] window IH]; intros start.
  - split; [constructor|done].
  - rewrite relevant_positions_cons, Forall_cons. simpl.
    destruct (is_relevant (doc_text doc) kws).
    + split; [done|by intros [? _]].
    + rewrite IH. split; [done|by intros [_ ?]].
Qed.

(** The state of the first loop of [ndcg_at_k] after a window. *)
Lemma dcg_loop_spec window kws i dcg relevances :
  dcg_loop i window kws dcg relevances =
  (fold_left (fun acc j => f_add acc (gain j))
             (relevant_positions i window kws) dcg,
   relevances ++ map (fun _ => 1) (relevant_positions i window kws)).
Proof.
  revert i dcg relevances.
  induction window as [|[doc score] window IH]; intros i dcg relevances.
  - simpl. by rewrite app_nil_r.
  - simpl. rewrite relevant_positions_cons.
    destruct (is_relevant (doc_text doc) kws); rewrite IH; [|done].
    simpl. by rewrite <- app_assoc.
Qed.

Lemma idcg_loop_spec (range : list Z) (idcg : F) :
  idcg_loop range idcg
  = fold_left (fun acc j => f_add acc (gain j)) range idcg.
Proof.
  revert idcg. induction range as [|i range IH]; intros idcg; [done|].
  simpl. apply IH.
Qed.

(** The two loops of [ndcg_at_k] compute [ndcg_over] on the slice. *)
Lemma ndcg_at_k_window results kws k :
  ndcg_at_k results kws k = ndcg_over (slice_to results k) kws.
Proof.
  unfold ndcg_at_k, ndcg_over. rewrite dcg_loop_spec. simpl.
  destruct (relevant_positions 1 (slice_to results k) kws)
    as [|p ps] eqn:E; [done|].
  rewrite decide_False by done. rewrite idcg_loop_spec.
  unfold py_range, accumulate. rewrite length_map. cbn [map].
  do 4 f_equal. lia.
Qed.

(** C9, as the code has it: for [k >= 0], [ndcg_at_k] returns exactly
    [0.0], without dividing, when no result among the first [k] is
    relevant, and otherwise DCG divided by IDCG: DCG accumulates
    [1 / log2(i + 1)] over the 1-based positions [i] of the relevant
    results among the first [k], IDCG over [j = 1 .. count] of the relevant
    results found. For [k < 0] the same holds over the results without
    the last [-k], not over an empty window. *)
Theorem ndcg_at_k_first_k results kws k :
  (0 <= k ->
   ndcg_at_k results kws k = ndcg_over (take (Z.to_nat k) results) kws)
  /\ (k < 0 ->
      ndcg_at_k results kws k
      = ndcg_over (take (length results - Z.to_nat (- k)) results) kws).
Proof.
  split; intros Hk; rewrite ndcg_at_k_window.
  - by rewrite slice_to_take.
  - by rewrite slice_to_negative.
Qed.

Lemma ndcg_at_k_none_relevant results kws k :
  Forall (fun p => is_relevant (doc_text p.1) kws = false)
         (slice_to results k) ->
  ndcg_at_k results kws k = PyFloat f_zero.
Proof.
  intros Hno. unfold ndcg_at_k. rewrite dcg_loop_spec.
  by rewrite (proj2 (relevant_positions_nil 1 _ kws) Hno).
Qed.

Lemma recall_loop_nil window : recall_loop window [] = PyInt 0.
Proof.
  induction window as [|[doc score] window IH]; [done|]. simpl. apply IH.
Qed.

Lemma rr_loop_nil rank window : rr_loop rank window [] = PyInt 0.
Proof.
  revert rank. induction window as [|[doc score] window IH]; intros rank;
    [done|].
  simpl. apply IH.
Qed.

Lemma dcg_loop_nil i window dcg relevances :
  dcg_loop i window [] dcg relevances = (dcg, relevances).
Proof.
  revert i. induction window as [|[doc score] window IH]; intros i; [done|].
  simpl. apply IH.
Qed.

(** C10: with an empty keyword list no document is relevant, and the
    three metrics are 0 on every ranked list. *)
Theorem empty_keywords_score_zero (text : pystr) results k :
  is_relevant text [] = false
  /\ recall_at_k results [] k = PyInt 0
  /\ reciprocal_rank results [] = PyInt 0
  /\ ndcg_at_k results [] k = PyFloat f_zero.
Proof.
  repeat split.
  - apply recall_loop_nil.
  - apply rr_loop_nil.
  - unfold ndcg_at_k. by rewrite dcg_loop_nil.
Qed.

(** C1, as the code has it: [recall_at_k] and [ndcg_at_k] return 0 for a
    [k < 1] when the window [results[:k]] is empty, which is the case for
    [k = 0] and for a negative [k] that drops every result; all three
    metrics return 0 on the empty ranked list. *)
Theorem empty_window_score_zero :
  (forall results kws k,
     k < 1 -> k = 0 \/ Z.of_nat (length results) <= - k ->
     recall_at_k results kws k = PyInt 0
     /\ ndcg_at_k results kws k = PyFloat f_zero)
  /\ (forall kws k,
       recall_at_k ([] : ranked F) kws k = PyInt 0
       /\ reciprocal_rank ([] : ranked F) kws = PyInt 0
       /\ ndcg_at_k ([] : ranked F) kws k = PyFloat f_zero).
Proof.
  split.
  - intros results kws k Hk Hlen. unfold recall_at_k, ndcg_at_k.
    by rewrite (slice_to_empty_window _ _ Hk Hlen).
  - intros kws k. unfold recall_at_k, ndcg_at_k. by rewrite slice_to_nil.
Qed.

End MetricsFacts.

(** ** The article-prefix oracle *)

Section Oracle.
Context {L : StrLower}.

Lemma existsb_starts_with (prefixes : list pystr) (article : pystr) :
  existsb (fun prefix => starts_with prefix article) prefixes = true
  <-> exists prefix rest, prefix ∈ prefixes /\ article = prefix ++ rest.
Proof.
  rewrite existsb_exists. split.
  - intros (p & Hin & Hp). apply starts_with_spec in Hp as [rest ->].
    exists p, rest. split; [by apply list_elem_of_In|done].
  - intros (p & rest & Hin & ->). exists p.
    split; [by apply list_elem_of_In|]. apply starts_with_spec.
    by exists rest.
Qed.

(** C2: under the article-prefix oracle a document with a non-empty
    [meta.num] is relevant iff [meta.num] starts with an accepted prefix;
    without [meta.num], or with an empty one, the judgment is the keyword
    oracle's on the fallback keywords when there are some, and not
    relevant otherwise. *)
Theorem is_relevant_v2_spec (doc : document) (query : BenchmarkQueryV2) :
  (forall article, meta_num doc = Some article -> article <> [] ->
     (is_relevant_v2 doc query = true
      <-> exists prefix rest,
            prefix ∈ relevant_num_prefixes query
            /\ article = prefix ++ rest))
  /\ (meta_num doc = None \/ meta_num doc = Some [] ->
      (forall keywords, relevant_keywords_fallback query = Some keywords ->
         is_relevant_v2 doc query = is_relevant (doc_text doc) keywords)
      /\ (relevant_keywords_fallback query = None ->
          is_relevant_v2 doc query = false)).
Proof.
  unfold is_relevant_v2. split.
  - intros article -> Hne. destruct article as [|c rest]; [done|].
    apply existsb_starts_with.
  - intros [-> | ->]; split; try (by intros keywords ->); by intros ->.
Qed.

End Oracle.

(** ** The scenarios of the specification, and instances of the theorems *)

Section Examples.
#[local] Existing Instance latin_lower.
#[local] Existing Instance real_ops.
Local Open Scope Z_scope.

(** Scenario D: intent detection and enrichment. *)
Example normalize_query_cdi :
  normalize_text query_cdi
  = u "dans quels cas un cdi peut il être rompu sans préavis".
Proof. vm_compute. reflexivity. Qed.

Example detect_query_cdi :
  detect_intention query_cdi sample_dictionary
  = Ok (Some (u "rupture_sans_preavis")).
Proof. vm_compute. reflexivity. Qed.

Example process_query_cdi :
  process_user_query query_cdi sample_dictionary
  = Ok {[ intent_detected := VStr (u "rupture_sans_preavis");
          enriched_query :=
            VStr (query_cdi ++ u " faute grave faute lourde licenciement");
          codes_cibles := VList [u "code du travail"];
          articles_cibles := VList [u "L1234-1"] ]}.
Proof. vm_compute. reflexivity. Qed.

Example process_query_conges :
  process_user_query query_conges sample_dictionary
  = Ok {[ intent_detected := VNone;
          enriched_query := VStr query_conges;
          notes := VStr no_intent_note ]}.
Proof. vm_compute. reflexivity. Qed.

(** Scenarios A, B and C: relevant document first, second, absent. *)
Example faute_first_scores :
  recall_at_k faute_first [u "faute grave"] 2 = PyInt 1
  /\ reciprocal_rank faute_first [u "faute grave"] = PyFloat (1 / 1)%R
  /\ ndcg_at_k faute_first [u "faute grave"] 2
     = PyFloat ((0 + 1 / (ln 2 / ln 2)) / (0 + 1 / (ln 2 / ln 2)))%R.
Proof. repeat split; reflexivity. Qed.

Example faute_second_scores :
  recall_at_k faute_second [u "faute grave"] 2 = PyInt 1
  /\ reciprocal_rank faute_second [u "faute grave"] = PyFloat (1 / 2)%R
  /\ ndcg_at_k faute_second [u "faute grave"] 2
     = PyFloat ((0 + 1 / (ln 3 / ln 2)) / (0 + 1 / (ln 2 / ln 2)))%R.
Proof. repeat split; reflexivity. Qed.

Example no_relevant_scores :
  recall_at_k faute_first [u "prescription"] 2 = PyInt 0
  /\ reciprocal_rank faute_first [u "prescription"] = PyInt 0
  /\ ndcg_at_k faute_first [u "prescription"] 2 = PyFloat 0%R.
Proof. repeat split; reflexivity. Qed.

(** Scenario E: the article-prefix oracle. *)
Example article_prefix_scenario :
  is_relevant_v2 (doc_of_num (u "Texte") (u "L1234-3")) query_l1234 = true
  /\ is_relevant_v2 (doc_of_num (u "Texte") (u "L1233-3")) query_l1234
     = false
  /\ is_relevant_v2 (doc_of_text (u "indemnité de préavis L1234"))
       query_l1234 = false.
Proof. repeat split; vm_compute; reflexivity. Qed.

(** The sample dictionary follows the schema. *)
Lemma sample_has_field (name : pystr) :
  name ∈ required_fields -> Forall (has_field name) sample_dictionary.
Proof.
  intros Hn. unfold required_fields in Hn.
  repeat (apply elem_of_cons in Hn as [->|Hn]);
    [repeat constructor; eexists; reflexivity ..|].
  by apply elem_of_nil in Hn.
Qed.

Lemma sample_well_formed : well_formed sample_dictionary.
Proof.
  split; [|apply sample_has_field].
  apply NoDup_cons. split; [|apply NoDup_singleton].
  intros Hin. apply list_elem_of_singleton in Hin. discriminate.
Qed.

Lemma no_trigger_conges :
  Forall (fun item => ~ triggers (normalize_text query_conges) item.2)
         sample_dictionary.
Proof.
  repeat constructor; simpl;
    (erewrite <- triggers_spec by reflexivity); vm_compute; discriminate.
Qed.

(** A negative [k] refutes C1 as worded: the window [faute_first[:-1]]
    keeps the first document, which is relevant, so neither metric is 0. *)
Lemma negative_k_counterexample :
  -1 < 1
  /\ recall_at_k faute_first [u "faute grave"] (-1) <> PyInt 0
  /\ ndcg_at_k faute_first [u "faute grave"] (-1) <> PyFloat 0%R.
Proof.
  split; [lia|]. split; [vm_compute; discriminate|].
  change (ndcg_at_k faute_first [u "faute grave"] (-1))
    with (PyFloat ((0 + 1 / (ln 2 / ln 2)) / (0 + 1 / (ln 2 / ln 2)))%R).
  intros Heq. injection Heq as Heq.
  assert (0 < ln 2)%R as Hln by (rewrite <- ln_1; apply ln_increasing; lra).
  replace (0 + 1 / (ln 2 / ln 2))%R with 1%R in Heq by (field; lra).
  lra.
Qed.

(** A negative [k] refutes C9 as worded: none of the first [-1] results
    of [faute_first] is relevant, there being none, yet [ndcg_at_k] scores
    the window [faute_first[:-1]], whose document is relevant. *)
Lemma ndcg_first_k_counterexample :
  take (Z.to_nat (-1)) faute_first = []
  /\ ndcg_over (take (Z.to_nat (-1)) faute_first) [u "faute grave"]
     = PyFloat 0%R
  /\ ndcg_at_k faute_first [u "faute grave"] (-1) <> PyFloat 0%R.
Proof.
  split; [reflexivity|]. split; [reflexivity|].
  change (ndcg_at_k faute_first [u "faute grave"] (-1))
    with (PyFloat ((0 + 1 / (ln 2 / ln 2)) / (0 + 1 / (ln 2 / ln 2)))%R).
  intros Heq. injection Heq as Heq.
  assert (0 < ln 2)%R as Hln by (rewrite <- ln_1; apply ln_increasing; lra).
  replace (0 + 1 / (ln 2 / ln 2))%R with 1%R in Heq by (field; lra).
  lra.
Qed.

Lemma ndcg_at_k_first_k_witness :
  ndcg_at_k faute_second [u "faute grave"] 2
  = ndcg_over (take (Z.to_nat 2) faute_second) [u "faute grave"].
Proof.
  apply (proj1 (ndcg_at_k_first_k (L:=latin_lower) (O:=real_ops)
                  faute_second [u "faute grave"] 2)).
  lia.
Defined.

Lemma empty_window_score_zero_witness :
  recall_at_k faute_first [u "faute grave"] (-2) = PyInt 0
  /\ ndcg_at_k faute_first [u "faute grave"] (-2) = PyFloat 0%R.
Proof.
  apply (proj1 (empty_window_score_zero (L:=latin_lower) (O:=real_ops)));
    [lia | right; simpl; lia].
Defined.

Lemma normalize_text_idempotent_witness :
  normalize_text (normalize_text query_cdi) = normalize_text query_cdi.
Proof. apply normalize_text_idempotent, lower_latin_plain. Defined.

Lemma detect_intention_first_match_witness :
  exists found,
    detect_intention query_cdi sample_dictionary = Ok found
    /\ first_match (normalize_text query_cdi) sample_dictionary found
    /\ forall found',
         first_match (normalize_text query_cdi) sample_dictionary found' ->
         found' = found.
Proof. apply detect_intention_first_match, sample_has_field. left. Defined.

Lemma process_user_query_no_intent_witness :
  exists r, process_user_query query_conges sample_dictionary = Ok r
    /\ r !! intent_detected = Some VNone
    /\ r !! enriched_query = Some (VStr query_conges).
Proof.
  apply process_user_query_no_intent;
    [apply sample_has_field; left | apply no_trigger_conges].
Defined.

Lemma enrich_query_missing_key_witness :
  enrich_query query_cdi (u "inconnu") sample_dictionary
  = Raise (KeyError (u "inconnu")).
Proof.
  apply enrich_query_missing_key. intros Hin.
  repeat (apply elem_of_cons in Hin as [Hin|Hin]; [discriminate|]).
  by apply elem_of_nil in Hin.
Defined.

Lemma enrich_query_result_witness :
  exists intent_data concepts termes,
    dict_get sample_dictionary (u "licenciement_economique") = Ok intent_data
    /\ intent_data !! concepts_juridiques_centrals = Some concepts
    /\ intent_data !! termes_juridiques_textes = Some termes
    /\ enrich_query query_conges (u "licenciement_economique")
         sample_dictionary
       = Ok (query_conges ++ [SPACE] ++ join [SPACE] (concepts ++ termes)).
Proof.
  apply enrich_query_result.
  - right. left.
  - apply sample_has_field. set_solver.
  - apply sample_has_field. set_solver.
Defined.

Lemma process_user_query_fields_witness :
  exists r, process_user_query query_cdi sample_dictionary = Ok r
    /\ ((detect_intention query_cdi sample_dictionary = Ok None
         /\ r !! codes_cibles = None /\ r !! articles_cibles = None
         /\ r !! notes = Some (VStr no_intent_note))
        \/ (exists intent_key intent_data codes articles,
              detect_intention query_cdi sample_dictionary
              = Ok (Some intent_key)
              /\ (intent_key, intent_data) ∈ sample_dictionary
              /\ triggers (normalize_text query_cdi) intent_data
              /\ intent_data !! codes_cibles = Some codes
              /\ intent_data !! articles_cibles = Some articles
              /\ r !! codes_cibles = Some (VList codes)
              /\ r !! articles_cibles = Some (VList articles))).
Proof. apply process_user_query_fields, sample_well_formed. Defined.

End Examples.

(** * Further properties of the modules *)

(** ** Metrics: what the scores say about the ranked list *)

Section MetricsMore.
Local Open Scope Z_scope.
Context {L : StrLower} {F : Type} {O : FloatOps F}.
Implicit Types (results window : ranked F) (kws : list pystr).

Lemma recall_loop_spec window kws :
  (Exists (judged_relevant kws) window /\ recall_loop window kws = PyInt 1)
  \/ (Forall (fun p => ~ judged_relevant kws p) window
      /\ recall_loop window kws = PyInt 0).
Proof.
  induction window as [|[doc score] window IH]; [right; by split|]. simpl.
  destruct (is_relevant (doc_text doc) kws) eqn:E.
  - left. split; [|done]. by left.
  - destruct IH as [[Hex Hr]|[Hall Hr]].
    + left. split; [by right|done].
    + right. split; [|done]. constructor; [|done]. unfold judged_relevant.
      simpl. congruence.
Qed.

Lemma Exists_not_Forall {A} (P : A -> Prop) (l : list A) :
  Exists P l -> Forall (fun x => ~ P x) l -> False.
Proof. induction 1; intros Hall; apply Forall_cons in Hall as [? ?]; auto. Qed.

(** X1: [recall_at_k] returns the integer 1 or 0, and 1 exactly when
    some result of the window [results[:k]] is judged relevant. *)
Theorem recall_at_k_binary results kws k :
  (recall_at_k results kws k = PyInt 1 \/ recall_at_k results kws k = PyInt 0)
  /\ (recall_at_k results kws k = PyInt 1
      <-> Exists (judged_relevant kws) (slice_to results k)).
Proof.
  unfold recall_at_k.
  destruct (recall_loop_spec (slice_to results k) kws) as [[Hex ->]|[Hall ->]].
  - split; [by left|done].
  - split; [by right|]. split; [done|]. intros Hex.
    destruct (Exists_not_Forall _ _ Hex Hall).
Qed.

Lemma rr_loop_spec window kws rank :
  (exists before doc score after,
      window = before ++ (doc, score) :: after
      /\ Forall (fun p => ~ judged_relevant kws p) before
      /\ is_relevant (doc_text doc) kws = true
      /\ rr_loop rank window kws
         = PyFloat (int_truediv 1 (rank + Z.of_nat (length before))))
  \/ (Forall (fun p => ~ judged_relevant kws p) window
      /\ rr_loop rank window kws = PyInt 0).
Proof.
  revert rank. induction window as [|[doc score] window IH]; intros rank;
    [right; by split|].
  simpl. destruct (is_relevant (doc_text doc) kws) eqn:E.
  - left. exists [], doc, score, window. simpl. rewrite Z.add_0_r.
    by repeat split.
  - destruct (IH (rank + 1)) as [(b & d & s & a & -> & Hb & Hd & Hr)|[Hall Hr]].
    + left. exists ((doc, score) :: b), d, s, a. repeat split; try done.
      * constructor; [|done]. unfold judged_relevant. simpl. congruence.
      * rewrite Hr. simpl. do 2 f_equal. lia.
    + right. split; [|done]. constructor; [|done]. unfold judged_relevant.
      simpl. congruence.
Qed.

(** X2: [reciprocal_rank] returns [1 / rank] for the 1-based rank of the
    first relevant result of the whole list, and the integer 0 when no
    result is relevant. *)
Theorem reciprocal_rank_first_relevant results kws :
  (exists before doc score after,
      results = before ++ (doc, score) :: after
      /\ Forall (fun p => ~ judged_relevant kws p) before
      /\ is_relevant (doc_text doc) kws = true
      /\ reciprocal_rank results kws
         = PyFloat (int_truediv 1 (Z.of_nat (length before) + 1)))
  \/ (Forall (fun p => ~ judged_relevant kws p) results
      /\ reciprocal_rank results kws = PyInt 0).
Proof.
  unfold reciprocal_rank.
  destruct (rr_loop_spec results kws 1)
    as [(b & d & s & a & -> & Hb & Hd & Hr)|?]; [|by right].
  left. exists b, d, s, a. repeat split; try done. rewrite Hr.
  do 2 f_equal. lia.
Qed.

Lemma Exists_take {A} (P : A -> Prop) (n m : nat) (l : list A) :
  (n <= m)%nat -> Exists P (take n l) -> Exists P (take m l).
Proof.
  intros Hnm Hex. rewrite <- (take_drop n (take m l)). apply Exists_app. left.
  rewrite take_take. by replace (n `min` m)%nat with n by lia.
Qed.

(** X3: a hit stays a hit in a larger window: recall is monotone in [k]
    among non-negative [k], and among negative [k]. *)
Theorem recall_at_k_monotone results kws k k' :
  0 <= k <= k' \/ k <= k' < 0 ->
  recall_at_k results kws k = PyInt 1 -> recall_at_k results kws k' = PyInt 1.
Proof.
  intros Hk. unfold recall_at_k.
  destruct (recall_loop_spec (slice_to results k) kws) as [[Hex _]|[_ ->]];
    [intros _|done].
  destruct (recall_loop_spec (slice_to results k') kws) as [[_ ->]|[Hall _]];
    [done|].
  exfalso. apply (Exists_not_Forall _ _) with (2 := Hall).
  revert Hex. unfold slice_to. destruct Hk as [Hk|Hk].
  - rewrite !(proj2 (Z.leb_le 0 _)) by lia. apply Exists_take. lia.
  - rewrite !(proj2 (Z.leb_gt 0 _)) by lia. apply Exists_take. lia.
Qed.

Lemma slice_to_sub results k :
  exists rest, results = slice_to results k ++ rest.
Proof.
  unfold slice_to. destruct (0 <=? k); eexists; symmetry; apply take_drop.
Qed.

(** X4: when [reciprocal_rank] is 0, [recall_at_k] and [ndcg_at_k] are 0
    for every [k], negative ones included. *)
Theorem no_relevant_result_all_zero results kws :
  reciprocal_rank results kws = PyInt 0 ->
  forall k, recall_at_k results kws k = PyInt 0
            /\ ndcg_at_k results kws k = PyFloat f_zero.
Proof.
  intros Hrr k.
  assert (Forall (fun p => ~ judged_relevant kws p) (slice_to results k))
    as Hno.
  { unfold reciprocal_rank in Hrr.
    destruct (rr_loop_spec results kws 1)
      as [(b & d & s & a & _ & _ & _ & Hr)|[Hall _]]; [congruence|].
    destruct (slice_to_sub results k) as [rest Hrest].
    rewrite Hrest in Hall. by apply Forall_app in Hall as [? _]. }
  split.
  - unfold recall_at_k.
    destruct (recall_loop_spec (slice_to results k) kws) as [[Hex _]|[_ ->]];
      [|done].
    destruct (Exists_not_Forall _ _ Hex Hno).
  - apply ndcg_at_k_none_relevant. eapply Forall_impl; [exact Hno|].
    intros [d s] Hd. unfold judged_relevant in Hd. simpl in *.
    by destruct (is_relevant (doc_text d) kws).
Qed.
End MetricsMore.

Section MetricsMore2.
Local Open Scope Z_scope.
Context {L : StrLower} {F : Type} {O : FloatOps F}.
Implicit Types (results window : ranked F) (kws : list pystr).

Lemma is_relevant_true (text : pystr) kws :
  is_relevant text kws = true
  <-> exists keyword, keyword ∈ kws
        /\ occurs_in (str_lower keyword) (str_lower text).
Proof.
  unfold is_relevant. rewrite existsb_exists. split.
  - intros (kw & Hin & Hc). exists kw. split; [by apply list_elem_of_In|].
    by apply contains_spec.
  - intros (kw & Hin & Hc). exists kw. split; [by apply list_elem_of_In|].
    by apply contains_spec.
Qed.

(** X7: adding keywords to the oracle never loses a relevant document,
    nor a hit of [recall_at_k]. *)
Theorem more_keywords_more_relevant results kws kws' k (text : pystr) :
  kws ⊆ kws' ->
  (is_relevant text kws = true -> is_relevant text kws' = true)
  /\ (recall_at_k results kws k = PyInt 1 ->
      recall_at_k results kws' k = PyInt 1).
Proof.
  intros Hsub.
  assert (forall t : pystr,
            is_relevant t kws = true -> is_relevant t kws' = true) as Hmono.
  { intros t Ht. apply is_relevant_true in Ht as (kw & Hin & Hc).
    apply is_relevant_true. exists kw. split; [by apply Hsub|done]. }
  split; [apply Hmono|]. unfold recall_at_k.
  destruct (recall_loop_spec (slice_to results k) kws) as [[Hex _]|[_ ->]];
    [intros _|done].
  destruct (recall_loop_spec (slice_to results k) kws') as [[_ ->]|[Hall _]];
    [done|].
  exfalso. apply (Exists_not_Forall _ _) with (2 := Hall).
  eapply Exists_impl; [exact Hex|]. intros [d s]. apply Hmono.
Qed.

(** X8: an empty keyword makes every document relevant (the empty string
    occurs in every text), so the reciprocal rank of a non-empty list is
    [1 / 1]; [str.lower] maps the empty string to itself. *)
Theorem blank_keyword_matches_all results kws (text : pystr) :
  str_lower [] = [] -> [] ∈ kws ->
  is_relevant text kws = true
  /\ (results <> [] ->
      reciprocal_rank results kws = PyFloat (int_truediv 1 1)).
Proof.
  intros Hlow Hin.
  assert (forall t : pystr, is_relevant t kws = true) as Hall.
  { intros t. apply is_relevant_true. exists []. split; [done|].
    rewrite Hlow. by exists [], (str_lower t). }
  split; [apply Hall|]. destruct results as [|[d s] results]; [done|].
  intros _. unfold reciprocal_rank. simpl. by rewrite Hall.
Qed.

(** X5: for [k >= 0], a hit of [recall_at_k] means that
    [reciprocal_rank] is [1 / rank] with [1 <= rank <= k]. *)
Theorem recall_hit_bounds_rank results kws k :
  0 <= k -> recall_at_k results kws k = PyInt 1 ->
  exists rank, 1 <= rank <= k
    /\ reciprocal_rank results kws = PyFloat (int_truediv 1 rank).
Proof.
  intros Hk. unfold recall_at_k, reciprocal_rank.
  destruct (recall_loop_spec (slice_to results k) kws) as [[Hex _]|[_ ->]];
    [intros _|done].
  destruct (rr_loop_spec results kws 1)
    as [(b & d & s & a & Hres & Hb & Hd & ->)|[Hall _]].
  - exists (1 + Z.of_nat (length b)). split; [|done]. split; [lia|].
    destruct (decide (Z.of_nat (length b) < k)) as [|Hge]; [lia|]. exfalso.
    apply (Exists_not_Forall _ _ Hex). rewrite slice_to_take by done.
    rewrite Hres. rewrite take_app_le by lia.
    apply Forall_take. exact Hb.
  - exfalso. apply (Exists_not_Forall _ _ Hex).
    destruct (slice_to_sub results k) as [rest Hrest]. rewrite Hrest in Hall.
    by apply Forall_app in Hall as [? _].
Qed.

(** X6: when [recall_at_k] is 0, [ndcg_at_k] is [0.0] for the same
    [k]. *)
Theorem recall_zero_ndcg_zero results kws k :
  recall_at_k results kws k = PyInt 0 ->
  ndcg_at_k results kws k = PyFloat f_zero.
Proof.
  unfold recall_at_k.
  destruct (recall_loop_spec (slice_to results k) kws) as [[_ ->]|[Hall _]];
    [done|intros _].
  apply ndcg_at_k_none_relevant. eapply Forall_impl; [exact Hall|].
  intros [d s] Hd. unfold judged_relevant in Hd. simpl in *.
  by destruct (is_relevant (doc_text d) kws).
Qed.
End MetricsMore2.

(** ** Metrics: DCG against IDCG *)

Section OrderedMetrics.
Local Open Scope Z_scope.
Context {L : StrLower} {F : Type} {O : FloatOps F}.
Implicit Types (results window : ranked F) (kws : list pystr).
Variable le : F -> F -> Prop.
Hypothesis le_refl : forall a, le a a.
Hypothesis le_add :
  forall a a' b b', le a a' -> le b b' -> le (f_add a b) (f_add a' b').
Hypothesis gain_antitone : forall i j, 1 <= i <= j -> le (gain j) (gain i).

Lemma fold_gains_le window kws start s acc acc' :
  1 <= s <= start -> le acc acc' ->
  le (fold_left (fun a j => f_add a (gain j))
                (relevant_positions start window kws) acc)
     (fold_left (fun a j => f_add a (gain j))
        (seqZ s (Z.of_nat (length (relevant_positions start window kws))))
        acc').
Proof.
  revert start s acc acc'.
  induction window as [|[doc score] window IH];
    intros start s acc acc' Hs Hacc; [done|].
  rewrite relevant_positions_cons. destruct (is_relevant (doc_text doc) kws).
  - rewrite seqZ_cons by (simpl; lia).
    replace (Z.pred (Z.of_nat (length (start :: relevant_positions
                                                  (start + 1) window kws))))
      with (Z.of_nat (length (relevant_positions (start + 1) window kws)))
      by (simpl; lia).
    simpl. apply IH; [lia|]. apply le_add; [done|]. by apply gain_antitone.
  - apply IH; [lia|done].
Qed.

(** X9: in any ordered arithmetic where [+] is monotone and the gain
    [1 / log2(i + 1)] does not grow with [i], the DCG of the first loop of
    [ndcg_at_k] is at most the IDCG of its second loop. *)
Theorem dcg_le_idcg window kws :
  le (dcg_loop 1 window kws f_zero []).1
     (idcg_loop
        (py_range 1 (Z.of_nat (length (dcg_loop 1 window kws f_zero []).2) + 1))
        f_zero).
Proof.
  rewrite dcg_loop_spec, idcg_loop_spec. simpl. rewrite length_map.
  unfold py_range.
  replace (Z.of_nat (length (relevant_positions 1 window kws)) + 1 - 1)
    with (Z.of_nat (length (relevant_positions 1 window kws))) by lia.
  apply fold_gains_le; [lia|apply le_refl].
Qed.
End OrderedMetrics.

Section RealMetrics.
Context {L : StrLower}.
#[local] Existing Instance real_ops.
Local Open Scope R_scope.

Lemma real_gain_pos (i : Z) : (1 <= i)%Z -> 0 < gain i.
Proof.
  intros Hi. unfold gain. simpl.
  assert (0 < ln 2) as H2 by (rewrite <- ln_1; apply ln_increasing; lra).
  assert (2 <= IZR (i + 1)) as Hi2 by (apply IZR_le; lia).
  assert (0 < ln (IZR (i + 1))) as Hl
    by (rewrite <- ln_1; apply ln_increasing; lra).
  apply Rdiv_lt_0_compat; [lra|]. by apply Rdiv_lt_0_compat.
Qed.

Lemma real_gain_antitone (i j : Z) : (1 <= i <= j)%Z -> gain j <= gain i.
Proof.
  intros Hij. unfold gain. simpl.
  assert (0 < ln 2) as H2 by (rewrite <- ln_1; apply ln_increasing; lra).
  assert (2 <= IZR (i + 1)) as Hi2 by (apply IZR_le; lia).
  assert (IZR (i + 1) <= IZR (j + 1)) as Hle by (apply IZR_le; lia).
  assert (0 < ln (IZR (i + 1))) as Hl
    by (rewrite <- ln_1; apply ln_increasing; lra).
  assert (ln (IZR (i + 1)) <= ln (IZR (j + 1))) as Hln.
  { destruct Hle as [Hlt| ->]; [|lra]. left. apply ln_increasing; lra. }
  unfold Rdiv. rewrite !Rmult_1_l. apply Rinv_le_contravar.
  - apply Rmult_lt_0_compat; [done|]. by apply Rinv_0_lt_compat.
  - apply Rmult_le_compat_r; [|done]. left. by apply Rinv_0_lt_compat.
Qed.

Lemma real_fold_gains_pos (ps : list Z) (acc : R) :
  Forall (fun i => (1 <= i)%Z) ps -> 0 <= acc ->
  acc <= fold_left (fun a j => f_add a (gain j)) ps acc.
Proof.
  intros Hps. revert acc.
  induction Hps as [|i ps Hi _ IH]; intros acc Hacc; [simpl; lra|].
  simpl. pose proof (real_gain_pos i Hi).
  etransitivity; [|apply IH]; simpl in *; lra.
Qed.

Lemma relevant_positions_ge (F : Type) (window : ranked F)
    (kws : list pystr) (start : Z) :
  Forall (fun i => (start <= i)%Z) (relevant_positions start window kws).
Proof.
  apply Forall_forall. intros i Hi.
  by apply relevant_positions_elem in Hi as (? & ? & ? & _).
Qed.

(** X10: with the float operations read as exact real arithmetic,
    [ndcg_at_k] always returns a float between 0 and 1. *)
Theorem real_ndcg_bounds (results : ranked R) (kws : list pystr) (k : Z) :
  exists x, ndcg_at_k results kws k = PyFloat x /\ 0 <= x <= 1.
Proof.
  unfold ndcg_at_k. rewrite dcg_loop_spec. cbv beta iota. cbn [app].
  pose proof (relevant_positions_ge R (slice_to results k) kws 1) as Hge.
  pose proof (fold_gains_le Rle Rplus_le_compat real_gain_antitone
                (slice_to results k) kws 1%Z 1%Z 0 0) as Hle.
  destruct (relevant_positions 1 (slice_to results k) kws) as [|p ps] eqn:E.
  { exists 0. split; [done|lra]. }
  cbn [map]. rewrite idcg_loop_spec. eexists. split; [reflexivity|].
  unfold py_range. cbn [length]. rewrite length_map.
  replace (Z.of_nat (S (length ps)) + 1 - 1)%Z
    with (Z.of_nat (length (p :: ps))) by (simpl; lia).
  specialize (Hle ltac:(lia) ltac:(simpl; lra)).
  pose proof (real_fold_gains_pos (p :: ps) 0 Hge ltac:(lra)) as Hdcg.
  set (dcg := fold_left _ (p :: ps) _) in *.
  set (idcg := fold_left _ (seqZ _ _) _) in *.
  assert (0 < idcg) as Hpos.
  { subst idcg. rewrite seqZ_cons by (simpl; lia). simpl fold_left.
    pose proof (real_gain_pos 1 ltac:(lia)) as Hg.
    eapply Rlt_le_trans; [|apply real_fold_gains_pos].
    - simpl. simpl in Hg. lra.
    - apply Forall_forall. intros i Hi. apply elem_of_seqZ in Hi. lia.
    - simpl. simpl in Hg. lra. }
  simpl. split.
  - apply Rmult_le_pos; [done|]. left. by apply Rinv_0_lt_compat.
  - apply (Rmult_le_reg_r idcg); [done|]. unfold Rdiv.
    rewrite Rmult_assoc, Rinv_l by lra. lra.
Qed.
End RealMetrics.

(** ** Query understanding: shape of the normal form, schema errors *)

Lemma spaced_head (s : pystr) (c : N) :
  spaced true (c :: s) = true -> is_space c = false.
Proof. simpl. by destruct (is_space c). Qed.

Lemma spaced_no_pair (b : bool) (s before after : pystr) (c c' : N) :
  spaced b s = true -> s = before ++ c :: c' :: after ->
  is_space c = true -> is_space c' = false.
Proof.
  revert b s. induction before as [|x before IH]; intros b s Hs -> Hc.
  - simpl in Hs. rewrite Hc in Hs. apply andb_true_iff in Hs as [_ Hs].
    by destruct (is_space c').
  - simpl in Hs. destruct (is_space x).
    + apply andb_true_iff in Hs as [_ Hs]. by apply (IH true _ Hs).
    + by apply (IH false _ Hs).
Qed.

Lemma rstrip_last (s : pystr) (c : N) :
  last (rstrip s) = Some c -> is_space c = false.
Proof.
  revert c. induction s as [|x s IH]; intros c; [done|]. simpl.
  destruct (rstrip s) as [|d r] eqn:E.
  - destruct (is_space x) eqn:Ex; [done|]. simpl. by intros [= <-].
  - intros Hl. apply IH. by rewrite last_cons_cons in Hl.
Qed.

Lemma collapse_only_space (b : bool) (s : pystr) :
  Forall (fun c => is_space c = true -> c = SPACE) (collapse b s).
Proof.
  revert b. induction s as [|c s IH]; intros b; [constructor|]. simpl.
  destruct (is_space c) eqn:E.
  - destruct b; [done|]. by constructor.
  - constructor; [congruence|done].
Qed.

Lemma strip_sub (P : N -> Prop) (s : pystr) :
  Forall P s -> Forall P (strip s).
Proof.
  intros Hs. unfold strip.
  destruct (lstrip_suffix s) as [pre Hpre].
  destruct (rstrip_prefix (lstrip s)) as [post Hpost].
  rewrite Hpre, Hpost in Hs. apply Forall_app in Hs as [_ Hs].
  by apply Forall_app in Hs as [Hs _].
Qed.

Lemma strip_squeeze_normal (t : pystr) :
  whitespace_normal (strip (squeeze_spaces t)).
Proof.
  assert (spaced true (strip (squeeze_spaces t)) = true) as Hs.
  { unfold strip, squeeze_spaces.
    apply rstrip_keeps_spaced, (lstrip_keeps_spaced false),
      collapse_is_spaced. }
  repeat split.
  - apply strip_sub, collapse_only_space.
  - destruct (strip (squeeze_spaces t)) as [|c s]; [done|]. simpl.
    intros [= ->]. by apply spaced_head in Hs.
  - intros Hl. unfold strip in Hl. by apply rstrip_last in Hl.
  - intros before after Heq.
    by pose proof (spaced_no_pair true _ before after SPACE SPACE Hs Heq
                                  eq_refl).
Qed.

Section Detection.
Context {L : StrLower}.

(** X11: a normalized text is made of kept letters and U+0020 only, with
    no space at either end and no two spaces in a row. *)
Theorem normalize_text_shape (x : pystr) :
  Forall plain (normalize_text x) /\ whitespace_normal (normalize_text x).
Proof. split; [apply tidy_plain|apply strip_squeeze_normal]. Qed.

(** X12: detecting on the normalized query gives the same intent as on
    the query itself, for a lower-casing that leaves normalized text
    alone. *)
Theorem detect_intention_normalized (query : pystr) (d : juridical_dictionary) :
  (forall s, Forall plain s -> str_lower s = s) ->
  detect_intention (normalize_text query) d = detect_intention query d.
Proof.
  intros Hlow. unfold detect_intention.
  change (normalize_text (normalize_text query))
    with (tidy (str_lower (tidy (str_lower query)))).
  rewrite (Hlow _ (tidy_plain _)). by rewrite tidy_idem.
Qed.

Lemma detect_loop_passed_over (nq : pystr)
    (before rest : juridical_dictionary) :
  Forall (passed_over nq) before ->
  detect_loop nq (before ++ rest) = detect_loop nq rest.
Proof.
  induction 1 as [|[k e] before [[phrases He] Hno] _ IH]; [done|].
  simpl in *. rewrite (get_field_Some _ _ _ He). simpl.
  destruct (phrase_found phrases nq) eqn:E; [|done].
  destruct Hno. by apply (triggers_spec nq e phrases He).
Qed.

(** X13: detection stops at the first entry that triggers: the entries
    after it are not read, whatever they hold. *)
Theorem detect_intention_stops_at_match (query : pystr)
    (before after : juridical_dictionary) (k : pystr) (e : intent_entry) :
  Forall (passed_over (normalize_text query)) before ->
  triggers (normalize_text query) e ->
  detect_intention query (before ++ (k, e) :: after) = Ok (Some k).
Proof.
  intros Hb (phrases & p & He & Hp). unfold detect_intention.
  rewrite (detect_loop_passed_over _ _ _ Hb). simpl.
  rewrite (get_field_Some _ _ _ He). simpl.
  replace (phrase_found phrases (normalize_text query)) with true; [done|].
  symmetry. apply phrase_found_spec. by exists p.
Qed.

(** X14: an entry without [intentions_utilisateur] that is reached before
    any match makes [detect_intention] raise [KeyError] on that field. *)
Theorem detect_intention_schema_error (query : pystr)
    (before after : juridical_dictionary) (k : pystr) (e : intent_entry) :
  Forall (passed_over (normalize_text query)) before ->
  e !! intentions_utilisateur = None ->
  detect_intention query (before ++ (k, e) :: after)
  = Raise (KeyError intentions_utilisateur).
Proof.
  intros Hb He. unfold detect_intention.
  rewrite (detect_loop_passed_over _ _ _ Hb). simpl.
  unfold get_field. by rewrite He.
Qed.

End Detection.




(** X15: for a key of the dictionary, a missing
    [concepts_juridiques_centrals] raises [KeyError] on it, and a missing
    [termes_juridiques_textes] raises [KeyError] on it once the concepts
    are there. *)
Theorem enrich_query_schema_error (query intent_key : pystr)
    (d : juridical_dictionary) (e : intent_entry) :
  dict_get d intent_key = Ok e ->
  (e !! concepts_juridiques_centrals = None ->
   enrich_query query intent_key d
   = Raise (KeyError concepts_juridiques_centrals))
  /\ (is_Some (e !! concepts_juridiques_centrals) ->
      e !! termes_juridiques_textes = None ->
      enrich_query query intent_key d
      = Raise (KeyError termes_juridiques_textes)).
Proof.
  intros Hget. unfold enrich_query. rewrite Hget. simpl. split.
  - intros Hc. unfold get_field. by rewrite Hc.
  - intros [cs Hcs] Ht. rewrite (get_field_Some _ _ _ Hcs). simpl.
    unfold get_field. by rewrite Ht.
Qed.

Section Pipe.
Context {L : StrLower}.


(** X17: whenever the pipeline returns, [enriched_query] starts with the
    original query and [intent_detected] is set. *)
Theorem process_user_query_keeps_query (query : pystr)
    (d : juridical_dictionary) (r : gmap pystr pyval) :
  process_user_query query d = Ok r ->
  exists enriched rest,
    r !! enriched_query = Some (VStr enriched)
    /\ enriched = query ++ rest
    /\ is_Some (r !! intent_detected).
Proof.
  unfold process_user_query, detect_intention.
  destruct (detect_loop (normalize_text query) d) as [[k|]|err'] eqn:Hd;
    simpl; [| |done].
  - unfold enrich_query.
    destruct (dict_get d k) as [e|]; simpl; [|done].
    destruct (get_field e concepts_juridiques_centrals) as [cs|]; simpl;
      [|done].
    destruct (get_field e termes_juridiques_textes) as [ts|]; simpl; [|done].
    destruct (get_field e codes_cibles) as [cc|]; simpl; [|done].
    destruct (get_field e articles_cibles) as [ac|]; simpl; [|done].
    intros [= <-]. eexists _, _. split; [reflexivity|]. split; [reflexivity|].
    by eexists.
  - intros [= <-]. exists query, []. split; [reflexivity|].
    split; [by rewrite app_nil_r|by eexists].
Qed.

(** X18: the result has exactly the keys [intent_detected],
    [enriched_query], [notes] when no intent is detected, and exactly
    [intent_detected], [enriched_query], [codes_cibles], [articles_cibles]
    (no [notes]) when one is. *)
Theorem process_user_query_keys (query : pystr) (d : juridical_dictionary)
    (r : gmap pystr pyval) :
  process_user_query query d = Ok r ->
  (detect_intention query d = Ok None
   /\ dom r = {[ intent_detected; enriched_query; notes ]})
  \/ (exists k, detect_intention query d = Ok (Some k)
      /\ r !! intent_detected = Some (VStr k)
      /\ dom r = {[ intent_detected; enriched_query;
                    codes_cibles; articles_cibles ]}).
Proof.
  unfold process_user_query, detect_intention.
  destruct (detect_loop (normalize_text query) d) as [[k|]|err'] eqn:Hd;
    simpl; [| |done].
  - unfold enrich_query.
    destruct (dict_get d k) as [e|]; simpl; [|done].
    destruct (get_field e concepts_juridiques_centrals) as [cs|]; simpl;
      [|done].
    destruct (get_field e termes_juridiques_textes) as [ts|]; simpl; [|done].
    destruct (get_field e codes_cibles) as [cc|]; simpl; [|done].
    destruct (get_field e articles_cibles) as [ac|]; simpl; [|done].
    intros [= <-]. right. exists k. split; [done|]. split; [reflexivity|].
    rewrite !dom_insert_L, dom_singleton_L. set_solver.
  - intros [= <-]. left. split; [done|].
    rewrite !dom_insert_L, dom_singleton_L. set_solver.
Qed.
End Pipe.

(** ** Corpus loaders *)

Lemma element_induction (P : element -> Prop) :
  (forall tag text tail children,
     Forall P children -> P (Element tag text tail children)) ->
  forall e, P e.
Proof.
  intros Hstep. fix IH 1. intros [tag text tail children].
  apply Hstep. induction children as [|c cs IHcs]; constructor; [apply IH|done].
Qed.

Lemma elem_iter_unfold (tag : pystr) (text tail : option pystr)
    (cs : list element) :
  elem_iter (Element tag text tail cs)
  = Element tag text tail cs :: concat (map elem_iter cs).
Proof.
  simpl. f_equal. induction cs as [|c cs IH]; [done|]. simpl. by rewrite IH.
Qed.

Lemma contains_empty (s : pystr) : contains [] s = true.
Proof. by destruct s. Qed.

Section Loaders.
Context {L : StrLower} {W : FileSystem} {Num : Type} {J : PyJson Num}.
Import CorpusLoaderJsonl.
Local Open Scope Z_scope.

Lemma collect_parts_app (a b : list element) :
  collect_parts (a ++ b) = collect_parts a ++ collect_parts b.
Proof.
  induction a as [|e a IH]; [done|]. simpl. by rewrite IH, !app_assoc.
Qed.

Lemma collect_parts_strip (root : element) :
  collect_parts (elem_iter (strip_xml_namespaces root))
  = collect_parts (elem_iter root).
Proof.
  induction root as [tag text tail cs IH] using element_induction.
  cbn [strip_xml_namespaces]. rewrite !elem_iter_unfold.
  cbn [collect_parts elem_text elem_tail]. do 2 f_equal.
  induction IH as [|c cs Hc _ IHcs]; [done|].
  cbn [map concat]. by rewrite !collect_parts_app, Hc, IHcs.
Qed.

(** X19: [remove_namespaces] has no effect on the extracted text. *)
Theorem extract_text_ignores_namespaces (xml_path : pystr) :
  extract_text_from_xml xml_path true = extract_text_from_xml xml_path false.
Proof.
  unfold extract_text_from_xml.
  destruct (et_parse xml_path) as [root|]; [|done].
  by rewrite collect_parts_strip.
Qed.
(** X20: the extracted text has whitespace only as single U+0020
    between words, and it is empty when the file does not parse. *)
Theorem extract_text_whitespace_normal (xml_path : pystr) (flag : bool) :
  whitespace_normal (extract_text_from_xml xml_path flag)
  /\ (et_parse xml_path = None -> extract_text_from_xml xml_path flag = []).
Proof.
  unfold extract_text_from_xml. destruct (et_parse xml_path) as [root|].
  - split; [apply strip_squeeze_normal|done].
  - split; [|done]. repeat split; try done. intros [|??] ?; done.
Qed.

Lemma iter_names_unlimited root_dir files count :
  iter_names root_dir files None count
  = (xml_paths_in root_dir files,
     count + py_len (xml_paths_in root_dir files), false).
Proof.
  revert count. induction files as [|name files IH]; intros count.
  - simpl. unfold py_len. simpl. by rewrite Z.add_0_r.
  - simpl. unfold xml_paths_in, is_xml_name in *. simpl.
    destruct (ends_with xml_ext (str_lower name)); simpl; [|apply IH].
    rewrite IH. unfold py_len. simpl. do 2 f_equal. lia.
Qed.

Lemma iter_names_limited root_dir files n count :
  let xs := xml_paths_in root_dir files in
  let want := Z.max 1 (n - count) in
  iter_names root_dir files (Some n) count
  = if decide (want <= py_len xs)
    then (take (Z.to_nat want) xs, count + want, true)
    else (xs, count + py_len xs, false).
Proof.
  revert count. induction files as [|name files IH]; intros count; simpl.
  - unfold py_len. simpl. rewrite decide_False by lia. by rewrite Z.add_0_r.
  - unfold xml_paths_in, is_xml_name in *. simpl.
    destruct (ends_with xml_ext (str_lower name)); simpl; [|apply IH].
    set (xs := map (path_join root_dir) (List.filter _ files)) in *.
    unfold py_len in *. simpl length.
    destruct (n <=? count + 1) eqn:E.
    + apply Z.leb_le in E. rewrite decide_True by lia.
      replace (Z.max 1 (n - count)) with 1 by lia. done.
    + apply Z.leb_gt in E. rewrite IH.
      replace (Z.max 1 (n - (count + 1))) with (n - count - 1) by lia.
      replace (Z.max 1 (n - count)) with (n - count) by lia.
      destruct (decide (n - count - 1 <= Z.of_nat (length xs))).
      * rewrite decide_True by lia.
        replace (Z.to_nat (n - count)) with (S (Z.to_nat (n - count - 1)))
          by lia.
        simpl. do 2 f_equal. lia.
      * rewrite decide_False by lia. do 2 f_equal. lia.
Qed.

Lemma iter_walk_unlimited walk count :
  iter_walk walk None count = all_xml_files walk.
Proof.
  revert count. induction walk as [|[dir files] walk IH]; intros count; [done|].
  simpl. rewrite iter_names_unlimited. unfold all_xml_files. simpl.
  by rewrite IH.
Qed.

Lemma iter_walk_limited walk n count :
  iter_walk walk (Some n) count
  = take (Z.to_nat (Z.max 1 (n - count))) (all_xml_files walk).
Proof.
  revert count. induction walk as [|[dir files] walk IH]; intros count.
  - unfold all_xml_files. simpl. by rewrite take_nil.
  - simpl. rewrite iter_names_limited. unfold all_xml_files. simpl.
    set (xs := xml_paths_in dir files). unfold py_len.
    destruct (decide (Z.max 1 (n - count) <= Z.of_nat (length xs))).
    + rewrite take_app_le by lia. done.
    + rewrite IH. rewrite take_app_ge by lia. f_equal. f_equal.
      destruct xs as [|x xs']; simpl length in *; [f_equal; lia|]. lia.
Qed.

(** X21: without a limit [iter_xml_files] yields every path whose
    lower-cased name ends with [.xml], in walk order; with a limit [n] it
    yields the first [max(1, n)] of them: the limit is tested after the
    yield, so a limit of 0 still yields one file. *)
Theorem iter_xml_files_limit (data_root : pystr) :
  iter_xml_files data_root None = all_xml_files (os_walk data_root)
  /\ forall n,
       iter_xml_files data_root (Some n)
       = take (Z.to_nat (Z.max 1 n)) (all_xml_files (os_walk data_root)).
Proof.
  split; [apply iter_walk_unlimited|]. intros n. unfold iter_xml_files.
  rewrite iter_walk_limited. by rewrite Z.sub_0_r.
Qed.
Lemma load_jsonl_loop_kept lines min limit chunks out :
  load_jsonl_loop lines min limit chunks = Returned out ->
  Forall (kept_chunk min) chunks -> Forall (kept_chunk min) out.
Proof.
  revert chunks. induction lines as [|line lines IH]; intros chunks; simpl.
  { by intros [= <-]. }
  destruct (reached limit (py_len chunks)); [by intros [= <-]|].
  destruct (strip line) as [|c l] eqn:El; [apply IH|].
  destruct (json_loads (c :: l)) as [obj|]; [|apply IH].
  destruct obj as [| | | | |fields]; try done.
  cbn [py_get mbind outcome_bind].
  destruct (assoc fields key_text) as [[| | |s| |]|] eqn:Et; try apply IH.
  destruct (assoc fields key_doc_id) as [id|] eqn:Ei; simpl; [|apply IH].
  destruct (truthy id) eqn:Eid; simpl; [|apply IH].
  destruct (py_len s <? min) eqn:Elen; [apply IH|].
  intros Hout Hall. apply (IH _ Hout). apply Forall_app. split; [done|].
  constructor; [|done]. exists fields, id, s. apply Z.ltb_ge in Elen. done.
Qed.

Lemma load_jsonl_loop_bound lines min n chunks out :
  load_jsonl_loop lines min (Some n) chunks = Returned out ->
  py_len chunks <= Z.max 0 n -> py_len out <= Z.max 0 n.
Proof.
  revert chunks. induction lines as [|line lines IH]; intros chunks; simpl.
  { by intros [= <-]. }
  destruct (n <=? py_len chunks) eqn:En; [by intros [= <-]|].
  apply Z.leb_gt in En.
  destruct (strip line) as [|c l] eqn:El; [apply IH|].
  destruct (json_loads (c :: l)) as [obj|]; [|apply IH].
  destruct (py_get obj key_doc_id) as [id|]; [|done]. simpl.
  destruct (py_get obj key_text) as [text|]; [|done]. simpl.
  destruct text; try apply IH.
  destruct (negb (truthy id)); [apply IH|].
  destruct (py_len s <? min); [apply IH|].
  intros Hout _. apply (IH _ Hout). unfold py_len in *.
  rewrite length_app. simpl. lia.
Qed.

(** X23: every chunk that [load_documents_from_jsonl] returns is a
    dictionary with a truthy [doc_id] and a string [text] of at least
    [min_text_len] characters, and with a limit [n] there are at most
    [max(0, n)] of them. *)
Theorem load_documents_from_jsonl_chunks jsonl_path min limit out :
  load_documents_from_jsonl jsonl_path min limit = Returned out ->
  Forall (kept_chunk min) out
  /\ forall n, limit = Some n -> py_len out <= Z.max 0 n.
Proof.
  unfold load_documents_from_jsonl.
  destruct (read_lines jsonl_path) as [lines|]; [|done]. intros Hout. split.
  - by apply (load_jsonl_loop_kept _ _ _ _ _ Hout).
  - intros n ->. apply (load_jsonl_loop_bound _ _ _ _ _ Hout).
    unfold py_len. simpl. lia.
Qed.

Lemma load_jsonl_loop_extends lines min limit chunks out :
  load_jsonl_loop lines min limit chunks = Returned out ->
  exists more, out = chunks ++ more.
Proof.
  revert chunks. induction lines as [|line lines IH]; intros chunks; simpl.
  { intros [= <-]. exists []. by rewrite app_nil_r. }
  destruct (reached limit (py_len chunks)).
  { intros [= <-]. exists []. by rewrite app_nil_r. }
  destruct (strip line) as [|c l] eqn:El; [apply IH|].
  destruct (json_loads (c :: l)) as [obj|]; [|apply IH].
  destruct (py_get obj key_doc_id) as [id|]; [|done]. simpl.
  destruct (py_get obj key_text) as [text|]; [|done]. simpl.
  destruct text; try apply IH.
  destruct (negb (truthy id)); [apply IH|].
  destruct (py_len s <? min); [apply IH|].
  intros Hout. destruct (IH _ Hout) as [more ->].
  exists (obj :: more). by rewrite <- app_assoc.
Qed.

Lemma load_jsonl_loop_limit lines min n chunks all :
  load_jsonl_loop lines min None chunks = Returned all ->
  load_jsonl_loop lines min (Some n) chunks
  = Returned (if decide (n <= py_len chunks) then chunks
              else take (Z.to_nat n) all).
Proof.
  revert chunks. induction lines as [|line lines IH]; intros chunks; simpl.
  { intros [= <-]. case_decide; [done|]. rewrite firstn_all2; [done|].
    unfold py_len in *. lia. }
  destruct (n <=? py_len chunks) eqn:En.
  { apply Z.leb_le in En. intros _. by rewrite decide_True. }
  apply Z.leb_gt in En. rewrite decide_False by lia.
  assert (forall chunks',
    load_jsonl_loop lines min None chunks' = Returned all ->
    chunks' = chunks \/ (exists obj, chunks' = chunks ++ [obj]) ->
    load_jsonl_loop lines min (Some n) chunks'
    = Returned (take (Z.to_nat n) all)) as Hstep.
  { intros chunks' Hall Hc. rewrite (IH _ Hall).
    case_decide as Hn; [|done].
    destruct Hc as [->|[obj ->]]; [lia|].
    destruct (load_jsonl_loop_extends _ _ _ _ _ Hall) as [more ->].
    unfold py_len in *. rewrite length_app in Hn. simpl in Hn.
    rewrite take_app_le by (rewrite length_app; simpl; lia).
    rewrite firstn_all2; [done|]. rewrite length_app. simpl. lia. }
  destruct (strip line) as [|c l] eqn:El; [intros; apply Hstep; auto|].
  destruct (json_loads (c :: l)) as [obj|]; [|intros; apply Hstep; auto].
  destruct (py_get obj key_doc_id) as [id|]; [|done]. simpl.
  destruct (py_get obj key_text) as [text|]; [|done]. simpl.
  destruct text; try (intros; apply Hstep; auto).
  destruct (negb (truthy id)); [intros; apply Hstep; auto|].
  destruct (py_len s <? min); [intros; apply Hstep; auto|].
  intros; apply Hstep; eauto.
Qed.

(** X24: when the unlimited load returns, the load with [limit_lines = n]
    returns its first [n] chunks: the limit counts kept chunks, not lines
    read. *)
Theorem load_documents_from_jsonl_limit jsonl_path min n all :
  load_documents_from_jsonl jsonl_path min None = Returned all ->
  load_documents_from_jsonl jsonl_path min (Some n)
  = Returned (take (Z.to_nat n) all).
Proof.
  unfold load_documents_from_jsonl.
  destruct (read_lines jsonl_path) as [lines|]; [|done]. intros Hall.
  rewrite (load_jsonl_loop_limit _ _ n _ _ Hall).
  case_decide as Hn; [|done]. unfold py_len in Hn. simpl in Hn.
  by replace (Z.to_nat n) with 0%nat by lia.
Qed.

Lemma load_jsonl_loop_skipped before rest min limit chunks :
  Forall skipped_line before ->
  reached limit (py_len chunks) = false ->
  load_jsonl_loop (before ++ rest) min limit chunks
  = load_jsonl_loop rest min limit chunks.
Proof.
  intros Hb Hr. induction Hb as [|line before Hs _ IH]; [done|]. simpl.
  rewrite Hr. destruct Hs as [->|Hs]; [done|].
  destruct (strip line); [done|]. by rewrite Hs.
Qed.

(** X25: a missing file raises [FileNotFoundError]; a line holding JSON
    that is not an object, met after skipped lines only, raises
    [AttributeError], unless the limit is 0 or less, in which case the
    loader returns no chunk without reading it. *)
Theorem load_documents_from_jsonl_errors jsonl_path min limit :
  (read_lines jsonl_path = None ->
   load_documents_from_jsonl jsonl_path min limit
   = Threw (FileNotFoundError (not_found_message jsonl_path)))
  /\ (forall before line after v,
        read_lines jsonl_path = Some (before ++ line :: after) ->
        Forall skipped_line before ->
        json_loads (strip line) = Some v -> strip line <> [] ->
        ~ is_dict v ->
        (reached limit 0 = false ->
         load_documents_from_jsonl jsonl_path min limit
         = Threw AttributeError)
        /\ (reached limit 0 = true ->
            load_documents_from_jsonl jsonl_path min limit = Returned [])).
Proof.
  unfold load_documents_from_jsonl. split; [by intros ->|].
  intros before line after v -> Hb Hv Hne Hnd. split; intros Hr.
  - rewrite (load_jsonl_loop_skipped _ _ _ _ _ Hb) by done.
    cbn [load_jsonl_loop]. change (py_len (@nil (json Num))) with 0.
    rewrite Hr. destruct (strip line) as [|c l]; [done|]. rewrite Hv.
    destruct v; try done. destruct Hnd. by eexists.
  - destruct before as [|b before]; cbn [load_jsonl_loop app];
      change (py_len (@nil (json Num))) with 0; by rewrite Hr.
Qed.
Lemma extract_nonempty_parsed xml_path flag :
  extract_text_from_xml xml_path flag <> [] -> is_Some (et_parse xml_path).
Proof.
  unfold extract_text_from_xml. destruct (et_parse xml_path); [by eexists|done].
Qed.

Lemma load_xml_loop_spec paths all min flag (documents : list (json Num)) :
  paths ⊆ all ->
  Forall (loaded_from min flag all) documents ->
  Forall (loaded_from min flag all) (load_xml_loop paths min flag documents).
Proof.
  revert documents. induction paths as [|p paths IH]; intros documents Hsub Hd;
    [done|].
  assert (paths ⊆ all) as Hsub' by set_solver.
  simpl.
  destruct (extract_text_from_xml p flag) as [|c t] eqn:E; [by apply IH|].
  destruct (min <=? py_len (c :: t)) eqn:Elen; [|by apply IH].
  apply IH; [done|]. apply Forall_app. split; [done|]. constructor; [|done].
  exists p. rewrite E. repeat split; try done.
  - set_solver.
  - apply (extract_nonempty_parsed p flag). by rewrite E.
  - by apply Z.leb_le.
Qed.

Lemma load_xml_loop_length paths min flag (documents : list (json Num)) :
  (length (load_xml_loop paths min flag documents)
   <= length documents + length paths)%nat.
Proof.
  revert documents. induction paths as [|p paths IH]; intros documents;
    simpl; [lia|].
  destruct (extract_text_from_xml p flag) as [|c t];
    [etransitivity; [apply IH|lia]|].
  destruct (min <=? py_len (c :: t)); (etransitivity; [apply IH|]);
    [rewrite length_app; simpl; lia|lia].
Qed.

(** X22: every document of [load_documents_from_xml] comes from a
    yielded path that parsed, with its extracted text, non-empty and of at
    least [min_text_len] characters; there are no more documents than
    yielded paths. *)
Theorem load_documents_from_xml_documents data_root min limit flag :
  Forall (loaded_from min flag (iter_xml_files data_root limit))
         (load_documents_from_xml (Num:=Num) data_root min limit flag)
  /\ (length (load_documents_from_xml (Num:=Num) data_root min limit flag)
      <= length (iter_xml_files data_root limit))%nat.
Proof.
  unfold load_documents_from_xml. split.
  - by apply load_xml_loop_spec.
  - etransitivity; [apply load_xml_loop_length|]. simpl. lia.
Qed.

Lemma get_field_readable doc key :
  readable doc -> exists s, get_field doc key = Returned s.
Proof.
  intros (fields & -> & Hmeta). unfold get_field.
  destruct (decide (key = key_text)); [by eexists|].
  destruct (decide (key = key_doc_id)); [by eexists|].
  destruct (decide (key = key_meta_titre)); [|by eexists].
  cbn [py_get mbind outcome_bind].
  destruct (assoc fields key_meta) as [meta|] eqn:Em.
  - unfold py_or at 2. destruct (truthy meta) eqn:Et; [|by eexists].
    destruct (Hmeta meta eq_refl Et) as [mf ->]. by eexists.
  - by eexists.
Qed.

Lemma get_fields_readable doc search_in :
  readable doc -> exists fields, get_fields doc search_in = Returned fields.
Proof.
  intros Hd. induction search_in as [|k ks [fs IH]]; [by eexists|]. simpl.
  destruct (get_field_readable doc k Hd) as [s ->]. simpl. rewrite IH.
  by eexists.
Qed.

Lemma filter_loop_sublist documents needle search_in out :
  Forall readable documents ->
  exists kept, filter_loop documents needle search_in out
               = Returned (out ++ kept)
    /\ kept `sublist_of` documents.
Proof.
  intros Hd. revert out. induction Hd as [|doc documents Hdoc _ IH]; intros out.
  - exists []. by rewrite app_nil_r.
  - simpl. destruct (get_fields_readable doc search_in Hdoc) as [fs ->]. simpl.
    destruct (contains needle (str_lower (join [SPACE] fs))).
    + destruct (IH (out ++ [doc])) as (kept & -> & Hsub).
      exists (doc :: kept). rewrite <- app_assoc. split; [done|].
      by apply sublist_skip.
    + destruct (IH out) as (kept & -> & Hsub). exists kept. split; [done|].
      by apply sublist_cons.
Qed.

(** X26: on dictionaries whose [meta] is absent, falsy or a dictionary,
    [filter_documents_by_substring] returns, for any [search_in], a
    subsequence of the documents in their order, and all of them when the
    substring is [None] or empty. *)
Theorem filter_readable_documents documents required search_in :
  Forall readable documents ->
  exists kept,
    filter_documents_by_substring documents required search_in
    = Returned kept
    /\ kept `sublist_of` documents
    /\ (required = None \/ required = Some [] -> kept = documents).
Proof.
  intros Hd. unfold filter_documents_by_substring.
  destruct required as [[|c s]|].
  - exists documents. by repeat split.
  - destruct (filter_loop_sublist documents (str_lower (c :: s)) search_in []
                Hd) as (kept & -> & Hsub).
    exists kept. repeat split; [done|]. by intros [|].
  - exists documents. by repeat split.
Qed.

(** X27: a document whose [meta] is truthy but not a dictionary makes
    the filter raise [AttributeError] as soon as [meta.titre] is searched
    and the substring is not empty. *)
Theorem filter_unreadable_meta before doc after fields meta needle search_in :
  Forall readable before ->
  doc = JDict fields -> assoc fields key_meta = Some meta ->
  truthy meta = true -> ~ is_dict meta ->
  key_meta_titre ∈ search_in -> needle <> [] ->
  filter_documents_by_substring (before ++ doc :: after) (Some needle)
                                search_in
  = Threw AttributeError.
Proof.
  intros Hb -> Hm Ht Hnd Hin Hne. unfold filter_documents_by_substring.
  destruct needle as [|c s]; [done|].
  assert (get_fields (JDict fields) search_in = Threw AttributeError) as Hf.
  { induction search_in as [|k ks IH]; [by apply elem_of_nil in Hin|].
    simpl. destruct (decide (k = key_meta_titre)) as [->|Hk].
    - unfold get_field. rewrite decide_False by done.
      rewrite decide_False by done. rewrite decide_True by done.
      cbn [py_get mbind outcome_bind]. rewrite Hm. unfold py_or at 2.
      rewrite Ht. destruct meta; try done. destruct Hnd. by eexists.
    - apply elem_of_cons in Hin as [?|Hin]; [congruence|].
      destruct (get_field (JDict fields) k) as [f|e] eqn:Ef; simpl.
      + by rewrite (IH Hin).
      + revert Ef. unfold get_field.
        destruct (decide (k = key_text)); [done|].
        destruct (decide (k = key_doc_id)); [done|].
        destruct (decide (k = key_meta_titre)); [done|done]. }
  generalize (@nil (json Num)) as out.
  induction Hb as [|d before Hd _ IH]; intros out; simpl.
  - by rewrite Hf.
  - destruct (get_fields_readable d search_in Hd) as [fs ->]. simpl.
    destruct (contains _ _); apply IH.
Qed.
Lemma filter_loop_text (documents : list CorpusLoader.raw_document)
    (needle : pystr) (out : list (json Num)) :
  filter_loop (map as_dict documents) needle [key_text] out
  = Returned
      (out ++ map as_dict
         (List.filter
            (fun doc => contains needle (str_lower (CorpusLoader.text doc)))
            documents)).
Proof.
  revert out. induction documents as [|d ds IH]; intros out.
  - simpl. by rewrite app_nil_r.
  - cbn [map filter_loop].
    assert (get_fields (as_dict d) [key_text]
            = Returned [CorpusLoader.text d]) as ->.
    { unfold as_dict, xml_document. cbn [get_fields]. unfold get_field.
      rewrite decide_True by done. cbn [py_get assoc].
      rewrite decide_False by done. rewrite decide_True by done.
      cbn [mbind outcome_bind]. unfold py_or.
      by destruct (CorpusLoader.text d). }
    cbn [mbind outcome_bind join List.filter].
    destruct (contains needle (str_lower (CorpusLoader.text d))).
    + rewrite IH. cbn [map]. by rewrite <- app_assoc.
    + apply IH.
Qed.

(** X29: on [{doc_id, text}] documents searched in [text] only, the
    filter of this module keeps the same documents as the notebook's
    filter. *)
Theorem filters_agree_on_text (documents : list CorpusLoader.raw_document)
    (required : pystr) :
  str_lower [] = [] ->
  filter_documents_by_substring (map as_dict documents) (Some required)
                                [key_text]
  = Returned (map as_dict
                (CorpusLoader.filter_documents_by_substring documents
                                                            required)).
Proof.
  intros Hlow. unfold filter_documents_by_substring,
    CorpusLoader.filter_documents_by_substring.
  destruct required as [|c s].
  - rewrite Hlow. f_equal. f_equal. induction documents as [|d ds IH]; [done|].
    simpl. rewrite contains_empty. by rewrite <- IH.
  - by rewrite filter_loop_text.
Qed.
End Loaders.

Section NotebookLoader.
Context {L : StrLower} {W : FileSystem}.
Import CorpusLoader.
Local Open Scope Z_scope.

Lemma load_files_spec walk root_dir files all documents :
  (root_dir, all) ∈ walk -> files ⊆ all ->
  Forall (loaded_raw walk) documents ->
  Forall (loaded_raw walk) (load_files root_dir files documents).
Proof.
  intros Hw. revert documents.
  induction files as [|file files IH]; intros documents Hsub Hd; [done|].
  assert (files ⊆ all) as Hsub' by set_solver.
  simpl. destruct (ends_with xml_ext (str_lower file)) eqn:Ex; [|by apply IH].
  destruct (extract_text_from_xml (path_join root_dir file))
    as [[|c t]|] eqn:Et;
    [by apply IH| |by apply IH].
  destruct (200 <? py_len (c :: t)) eqn:El; [|by apply IH].
  apply IH; [done|]. apply Forall_app. split; [done|]. constructor; [|done].
  exists root_dir, all, file. simpl. repeat split; try done; [set_solver|].
  by apply Z.ltb_lt.
Qed.

Lemma load_dirs_spec walk all documents :
  walk ⊆ all ->
  Forall (loaded_raw all) documents ->
  Forall (loaded_raw all) (load_dirs walk documents).
Proof.
  revert documents. induction walk as [|[dir files] walk IH];
    intros documents Hsub Hd; [done|].
  simpl. apply IH; [set_solver|].
  apply (load_files_spec all dir files files); [set_solver|done|done].
Qed.

(** X28: every document of the notebook's [load_documents] comes from a
    file of the walk whose lower-cased name ends with [.xml], which parsed,
    and whose text has more than 200 characters. *)
Theorem load_documents_raw (data_root : pystr) :
  Forall (loaded_raw (os_walk data_root)) (load_documents data_root).
Proof. unfold load_documents. by apply load_dirs_spec. Qed.

End NotebookLoader.

(** ** Instances of the further theorems *)

Section FurtherExamples.
#[local] Existing Instance latin_lower.
#[local] Existing Instance real_ops.
#[local] Existing Instance sample_fs.
#[local] Existing Instance sample_json.
Local Open Scope Z_scope.

Lemma recall_at_k_monotone_witness :
  recall_at_k faute_second [u "faute grave"] 5 = PyInt 1.
Proof.
  apply (recall_at_k_monotone faute_second [u "faute grave"] 2 5);
    [left; lia | reflexivity].
Defined.

Lemma no_relevant_result_all_zero_witness :
  recall_at_k faute_first [u "prescription"] (-1) = PyInt 0
  /\ ndcg_at_k faute_first [u "prescription"] (-1) = PyFloat 0%R.
Proof.
  apply (no_relevant_result_all_zero (O:=real_ops) faute_first
           [u "prescription"]).
  reflexivity.
Defined.

Lemma recall_hit_bounds_rank_witness :
  exists rank, 1 <= rank <= 2
    /\ reciprocal_rank faute_second [u "faute grave"]
       = PyFloat (int_truediv 1 rank).
Proof. apply recall_hit_bounds_rank; [lia | reflexivity]. Defined.

Lemma recall_zero_ndcg_zero_witness :
  ndcg_at_k faute_second [u "faute grave"] 1 = PyFloat 0%R.
Proof. apply (recall_zero_ndcg_zero (O:=real_ops)). reflexivity. Defined.

Lemma more_keywords_more_relevant_witness :
  (is_relevant (u "Faute Grave") [u "faute grave"] = true ->
   is_relevant (u "Faute Grave") [u "prescription"; u "faute grave"] = true)
  /\ (recall_at_k faute_second [u "faute grave"] 2 = PyInt 1 ->
      recall_at_k faute_second [u "prescription"; u "faute grave"] 2
      = PyInt 1).
Proof.
  apply more_keywords_more_relevant. intros x Hx.
  apply elem_of_cons. by right.
Defined.

Lemma blank_keyword_matches_all_witness :
  is_relevant (u "Durée du congé payé") [u "prescription"; []] = true
  /\ (faute_second <> [] ->
      reciprocal_rank faute_second [u "prescription"; []]
      = PyFloat (int_truediv 1 1)).
Proof.
  apply blank_keyword_matches_all; [reflexivity | set_solver].
Defined.

Lemma dcg_le_idcg_witness :
  ((dcg_loop 1 faute_second [u "faute grave"] f_zero []).1
   <= idcg_loop
        (py_range 1
           (Z.of_nat
              (length (dcg_loop 1 faute_second [u "faute grave"] f_zero []).2)
            + 1))
        f_zero)%R.
Proof.
  apply (dcg_le_idcg (O:=real_ops) Rle Rle_refl Rplus_le_compat
           real_gain_antitone).
Defined.

Lemma detect_intention_normalized_witness :
  detect_intention (normalize_text query_cdi) sample_dictionary
  = detect_intention query_cdi sample_dictionary.
Proof. apply detect_intention_normalized, lower_latin_plain. Defined.

Lemma rupture_triggers : triggers (normalize_text query_cdi) rupture_entry.
Proof.
  apply (triggers_spec _ _ [u "rompu sans préavis"; u "sans préavis"]);
    vm_compute; reflexivity.
Qed.

Lemma detect_intention_stops_at_match_witness :
  detect_intention query_cdi
    ([] ++ (u "rupture_sans_preavis", rupture_entry) :: [(u "vide", ∅)])
  = Ok (Some (u "rupture_sans_preavis")).
Proof.
  apply detect_intention_stops_at_match;
    [constructor | apply rupture_triggers].
Defined.

Lemma detect_intention_schema_error_witness :
  detect_intention query_cdi ([] ++ (u "vide", ∅) :: sample_dictionary)
  = Raise (KeyError intentions_utilisateur).
Proof.
  apply detect_intention_schema_error; [constructor | reflexivity].
Defined.

Lemma enrich_query_schema_error_witness :
  enrich_query query_cdi (u "k") [(u "k", no_terms_entry)]
  = Raise (KeyError termes_juridiques_textes).
Proof.
  apply (proj2 (enrich_query_schema_error query_cdi (u "k")
                  [(u "k", no_terms_entry)] no_terms_entry eq_refl));
    [eexists; reflexivity | reflexivity].
Defined.


Lemma process_result_cdi :
  process_user_query query_cdi sample_dictionary = Ok result_cdi.
Proof. vm_compute. reflexivity. Qed.

Lemma process_user_query_keeps_query_witness :
  exists enriched rest,
    result_cdi !! enriched_query = Some (VStr enriched)
    /\ enriched = query_cdi ++ rest
    /\ is_Some (result_cdi !! intent_detected).
Proof.
  apply (process_user_query_keeps_query query_cdi sample_dictionary).
  apply process_result_cdi.
Defined.

Lemma process_user_query_keys_witness :
  (detect_intention query_cdi sample_dictionary = Ok None
   /\ dom result_cdi = {[ intent_detected; enriched_query; notes ]})
  \/ (exists k, detect_intention query_cdi sample_dictionary = Ok (Some k)
      /\ result_cdi !! intent_detected = Some (VStr k)
      /\ dom result_cdi = {[ intent_detected; enriched_query;
                             codes_cibles; articles_cibles ]}).
Proof. apply process_user_query_keys, process_result_cdi. Defined.

Lemma load_chunks_unlimited :
  CorpusLoaderJsonl.load_documents_from_jsonl (u "chunks.jsonl") 5 None
  = Returned [chunk_preavis; chunk_faute].
Proof. vm_compute. reflexivity. Qed.

Lemma load_documents_from_jsonl_chunks_witness :
  Forall (kept_chunk 5) [chunk_preavis; chunk_faute]
  /\ forall n, None = Some n ->
       py_len [chunk_preavis; chunk_faute] <= Z.max 0 n.
Proof.
  apply (load_documents_from_jsonl_chunks (u "chunks.jsonl") 5 None).
  apply load_chunks_unlimited.
Defined.

Lemma load_documents_from_jsonl_limit_witness :
  CorpusLoaderJsonl.load_documents_from_jsonl (u "chunks.jsonl") 5 (Some 1)
  = Returned (take (Z.to_nat 1) [chunk_preavis; chunk_faute]).
Proof.
  apply load_documents_from_jsonl_limit, load_chunks_unlimited.
Defined.

Lemma chunks_readable : Forall readable [chunk_preavis; chunk_faute].
Proof.
  repeat constructor; eexists; (split; [reflexivity|]); intros meta Hm;
    vm_compute in Hm; discriminate.
Qed.

Lemma filter_readable_documents_witness :
  exists kept,
    CorpusLoaderJsonl.filter_documents_by_substring
      [chunk_preavis; chunk_faute] (Some (u "PRÉAVIS"))
      CorpusLoaderJsonl.default_search_in
    = Returned kept
    /\ kept `sublist_of` [chunk_preavis; chunk_faute]
    /\ (Some (u "PRÉAVIS") = None \/ Some (u "PRÉAVIS") = Some [] ->
        kept = [chunk_preavis; chunk_faute]).
Proof. apply filter_readable_documents, chunks_readable. Defined.

Lemma filter_unreadable_meta_witness :
  CorpusLoaderJsonl.filter_documents_by_substring
    ([chunk_preavis] ++ chunk_odd_meta :: [chunk_faute])
    (Some (u "congés")) CorpusLoaderJsonl.default_search_in
  = Threw AttributeError.
Proof.
  eapply filter_unreadable_meta; try reflexivity.
  - pose proof chunks_readable as Hr. apply Forall_cons in Hr as [Hr _].
    by constructor.
  - intros [fields Hf]. discriminate.
  - right. left.
  - discriminate.
Defined.

Lemma filters_agree_on_text_witness :
  CorpusLoaderJsonl.filter_documents_by_substring
    (map (as_dict (Num:=Z)) [raw_preavis; raw_faute]) (Some (u "PRÉAVIS"))
    [key_text]
  = Returned (map as_dict
                (CorpusLoader.filter_documents_by_substring
                   [raw_preavis; raw_faute] (u "PRÉAVIS"))).
Proof. apply filters_agree_on_text. reflexivity. Defined.

(** The loaders on the sample corpus. *)
Example sample_extract_text :
  CorpusLoaderJsonl.extract_text_from_xml (u "data/a.XML") true
  = u "Article L1234-1 Le préavis est dû".
Proof. vm_compute. reflexivity. Qed.

Example sample_iter_xml_files :
  CorpusLoaderJsonl.iter_xml_files (u "data") None
  = [u "data/a.XML"; u "data/b.xml"]
  /\ CorpusLoaderJsonl.iter_xml_files (u "data") (Some 0) = [u "data/a.XML"].
Proof. split; vm_compute; reflexivity. Qed.

Example sample_load_xml :
  CorpusLoaderJsonl.load_documents_from_xml (Num:=Z) (u "data") 10 None true
  = [CorpusLoaderJsonl.xml_document (u "data/a.XML")
       (u "Article L1234-1 Le préavis est dû")].
Proof. vm_compute. reflexivity. Qed.

Example sample_load_list_line :
  CorpusLoaderJsonl.load_documents_from_jsonl (u "liste.jsonl") 5 None
  = Threw AttributeError
  /\ CorpusLoaderJsonl.load_documents_from_jsonl (u "liste.jsonl") 5 (Some 0)
     = Returned []
  /\ CorpusLoaderJsonl.load_documents_from_jsonl (u "absent.jsonl") 5 None
     = Threw (FileNotFoundError (u "JSONL introuvable : absent.jsonl")).
Proof. repeat split; vm_compute; reflexivity. Qed.

End FurtherExamples.
